(** * SongDown: YouTube to MP3 downloader

    A shallow embedding of [streamlit_app.py] (the web front end with the
    download-validate-place pipeline) and of [yt_to_mp3.py] (the command
    line front end), with the properties of the filename sanitizer, of the
    collision counter, of the validator and of the pipeline.

    Python's [str] is a sequence of Unicode code points: it is modelled as
    a list of code points, so that the whitespace class of [re] and of
    [str.strip] is the one CPython uses. *)

From Stdlib Require Import ZArith NArith Ascii String DecimalN.
From stdpp Require Import gmap list.
From Stdlib Require Import Sorted Permutation.

Open Scope N_scope.

(** ** Python strings *)

Module Py.

Abbreviation char := N.
Abbreviation str := (list char).

(** A literal of the source, as its code points. *)
Fixpoint lit (s : string) : str :=
  match s with
  | EmptyString => []
  | String a r => N_of_ascii a :: lit r
  end.

(** [Py_UNICODE_ISSPACE]: the class behind [\s] of a [str] pattern and
    behind [str.strip()] with no argument. *)
Definition is_space (c : char) : bool :=
  ((9 <=? c) && (c <=? 13)) || ((28 <=? c) && (c <=? 32))
  || (c =? 133) || (c =? 160) || (c =? 5760)
  || ((8192 <=? c) && (c <=? 8202))
  || (c =? 8232) || (c =? 8233) || (c =? 8239) || (c =? 8287) || (c =? 12288).

Definition SPACE : char := 32.

(** [re.sub] of the pattern [\s+] by one space: the scanner is either outside a run of
    whitespace ([sub_ws]) or inside one ([in_ws], after the replacement of
    the run was emitted); a run is matched greedily, so it ends at the
    first character outside the class. *)
Fixpoint sub_ws (s : str) : str :=
  match s with
  | [] => []
  | c :: r => if is_space c then SPACE :: in_ws r else c :: sub_ws r
  end
with in_ws (s : str) : str :=
  match s with
  | [] => []
  | c :: r => if is_space c then in_ws r else c :: sub_ws r
  end.

Fixpoint lstrip (s : str) : str :=
  match s with
  | [] => []
  | c :: r => if is_space c then lstrip r else s
  end.

Fixpoint rstrip (s : str) : str :=
  match s with
  | [] => []
  | c :: r =>
      match rstrip r with
      | [] => if is_space c then [] else [c]
      | r' => c :: r'
      end
  end.

(** [s.strip()] *)
Definition strip (s : str) : str := rstrip (lstrip s).

(** [len(s)] *)
Definition len (s : str) : Z := Z.of_nat (length s).

(** [s[:k]] for an [int] k: a negative k counts from the end. *)
Definition slice_to (s : str) (k : Z) : str :=
  if (k <? 0)%Z then take (Z.to_nat (len s + k)) s else take (Z.to_nat k) s.

(** Decimal digits of [str(i)], and of [{i}] in an f-string, for a
    non-negative [int]. *)
Fixpoint digits (d : Decimal.uint) : str :=
  match d with
  | Decimal.Nil => []
  | Decimal.D0 r => 48 :: digits r
  | Decimal.D1 r => 49 :: digits r
  | Decimal.D2 r => 50 :: digits r
  | Decimal.D3 r => 51 :: digits r
  | Decimal.D4 r => 52 :: digits r
  | Decimal.D5 r => 53 :: digits r
  | Decimal.D6 r => 54 :: digits r
  | Decimal.D7 r => 55 :: digits r
  | Decimal.D8 r => 56 :: digits r
  | Decimal.D9 r => 57 :: digits r
  end.

Definition str_of_int (i : N) : str := digits (N.to_uint i).

(** [sub in s] *)
Fixpoint starts_with (p s : str) : bool :=
  match p, s with
  | [], _ => true
  | _ :: _, [] => false
  | a :: p', b :: s' => (a =? b) && starts_with p' s'
  end.

Fixpoint contains (p s : str) : bool :=
  starts_with p s ||
  match s with
  | [] => false
  | _ :: r => contains p r
  end.

(** [s.endswith(p)] *)
Definition ends_with (p s : str) : bool := starts_with (rev p) (rev s).

(** [a < b] on [str]: code point by code point. *)
Fixpoint str_le (a b : str) : bool :=
  match a, b with
  | [], _ => true
  | _ :: _, [] => false
  | x :: a', y :: b' => (x <? y) || ((x =? y) && str_le a' b')
  end.

End Py.

Import Py.

(** ** streamlit_app.py: the filename sanitizer *)

Module Sanitizer.

(** The character class of the first [re.sub]: backslash, slash, star,
    question mark, colon, double quote, less-than, greater-than, bar. *)
Definition forbidden (c : char) : bool :=
  (c =? 92) || (c =? 47) || (c =? 42) || (c =? 63) || (c =? 58)
  || (c =? 34) || (c =? 60) || (c =? 62) || (c =? 124).

(** The first [re.sub]: every character of the class is deleted. *)
Definition sub_forbidden (name : str) : str :=
  filter (fun c => forbidden c = false) name.

Definition safe_filename (name : str) (max_length : Z) : str :=
  let name := sub_forbidden name in
  let name := strip (sub_ws name) in
  if (len name >? max_length)%Z then slice_to name max_length else name.

Definition default_max_length : Z := 150.

(** *** What is observed of a name *)

Definition has_forbidden (s : str) : bool := existsb forbidden s.

(** Two whitespace characters in a row, anywhere in the name. *)
Fixpoint has_ws_run (s : str) : bool :=
  match s with
  | [] => false
  | c :: r =>
      (is_space c && match r with [] => false | c' :: _ => is_space c' end)
      || has_ws_run r
  end.

Definition ends_in_space (s : str) : bool :=
  match last s with Some c => is_space c | None => false end.

(** The name after the two substitutions and the strip, before the cut. *)
Definition normalized (s : str) : str := strip (sub_ws (sub_forbidden s)).

Definition head_ok (s : str) : Prop :=
  match s with [] => True | c :: _ => is_space c = false end.

(** Every whitespace character is a plain space, and is followed by a
    character that is not whitespace, if by any. *)
Fixpoint tidy (s : str) : Prop :=
  match s with
  | [] => True
  | c :: r => (is_space c = true -> c = SPACE /\ head_ok r) /\ tidy r
  end.

End Sanitizer.

Import Sanitizer.

(** ** The operating system and the external tools

    The file system is a family of flat directories: the temporary
    directories of [tempfile], by identity, and the user's directories, by
    path.  What the external programs and the library calls do is not part
    of the repository: it is given by an environment [Env], whose answers
    may depend on the whole state of the world, so on everything that has
    happened so far.  These calls of the file system may fail there: the
    making of a directory, the test whether a path exists, the move, the
    change of mode, the removal of a file and of a temporary directory, the
    reading of a file and of its time. *)

Module Sys.

Record File := mkFile { f_data : list N; f_mode : N }.

Abbreviation Dir := (gmap str File).

(** Where a file lives: in a temporary directory or in a user directory. *)
Inductive Where :=
| InTmp (t : positive)
| InDir (d : str).

(** The options handed to [YoutubeDL]. *)
Record YdlOpts := mkYdlOpts {
  format : str;
  outtmpl : Where * str;
  noplaylist : bool;
  postprocessor_key : str;
  preferredcodec : str;
  preferredquality : str;
  progress_hooks : bool;
  quiet : bool;
  no_warnings : bool
}.

Inductive StKind := StWarning | StError | StInfo | StSuccess | StMarkdown | StSpinner.

(** What the program does to the outside, in order. *)
Inductive Event :=
| Spawn (argv : list str) (timeout : N)   (* subprocess.run *)
| Ydl (opts : YdlOpts) (url : str)        (* YoutubeDL(opts): extract_info, download *)
| St (k : StKind) (msg : str)             (* st.warning, st.error, st.spinner, ... *)
| StDownloadButton (file_name : str) (data : list N)
| Stdout (msg : str).

Record World := mkWorld {
  tmpdirs : gmap positive Dir;
  dirs : gmap str Dir;
  log : list Event
}.

(** [Exception] and its subclasses are caught by [except Exception];
    [SystemExit], raised by [sys.exit], is not. *)
Inductive Exn :=
| Exception (msg : str)
| SystemExit (code : Z).

(** A child process: it cannot be started, or it runs for some seconds,
    prints and exits. *)
Inductive Proc :=
| LaunchError (msg : str)
| Exited (seconds : N) (stdout : str) (returncode : Z).

Record CompletedProcess := mkCompleted { stdout : str; returncode : Z }.

Record Env := mkEnv {
  (* shutil.which(tool) is not None *)
  which : str -> World -> bool;
  (* the process started from an argument vector *)
  proc : list str -> World -> Proc;
  (* yt-dlp: the files written under the output template, and the error
     raised at the end, if any *)
  ydl : YdlOpts -> str -> World -> list (str * File) * option str;
  (* the errors of the file-system calls *)
  mkdir_error : str -> World -> option str;
  unlink_error : positive -> str -> World -> option str;
  replace_error : positive -> str -> str -> str -> World -> option str;
  chmod_error : str -> str -> World -> option str;
  (* the error of os.stat on a path, when it is another one than those
     that say that the path is missing *)
  stat_error : str -> World -> option str;
  (* the error of the removal of a temporary directory when its block is
     left, with the names that the failed removal leaves in it *)
  rmtree_error : positive -> World -> option (str * (str -> bool));
  (* the errors of the conversion of the modification time of a path to
     text, and of the opening and reading of a path *)
  mtime_error : str -> World -> option str;
  read_error : str -> World -> option str;
  (* the path of a temporary directory, and of the home directory *)
  tmp_path : positive -> str;
  home : str;
  (* str.lower(), by the Unicode tables *)
  lower : str -> str;
  (* str(Path(s)): the path as pathlib writes it *)
  path_of : str -> str
}.

(** *** The monad of the program: state, exceptions, and running out of
    fuel for the one unbounded loop. *)

Inductive Result (A : Type) :=
| Ok (a : A)
| Raised (e : Exn)
| Diverged.
Arguments Ok {A} a.
Arguments Raised {A} e.
Arguments Diverged {A}.

Definition M (A : Type) : Type := World -> Result A * World.

#[global] Instance M_ret : MRet M := fun A a w => (Ok a, w).

#[global] Instance M_bind : MBind M := fun A B f m w =>
  match m w with
  | (Ok a, w') => f a w'
  | (Raised e, w') => (Raised e, w')
  | (Diverged, w') => (Diverged, w')
  end.

Definition raise {A} (e : Exn) : M A := fun w => (Raised e, w).

Definition diverge {A} : M A := fun w => (Diverged, w).

(** [try: m except Exception as e: h e] *)
Definition try_except {A} (m : M A) (h : str -> M A) : M A := fun w =>
  match m w with
  | (Raised (Exception msg), w') => h msg w'
  | rw => rw
  end.

Definition gets {A} (f : World -> A) : M A := fun w => (Ok (f w), w).

Definition modify (f : World -> World) : M unit := fun w => (Ok tt, f w).

Definition log_event (e : Event) (w : World) : World :=
  mkWorld (tmpdirs w) (dirs w) (log w ++ [e]).

Definition emit (e : Event) : M unit := modify (log_event e).

(** An error of a library call is raised as an [Exception]. *)
Definition fail_if (o : World -> option str) : M unit := fun w =>
  match o w with
  | Some msg => (Raised (Exception msg), w)
  | None => (Ok tt, w)
  end.

Definition path_join (a b : str) : str := a ++ lit "/" ++ b.

Definition tmp_dir (t : positive) (w : World) : Dir := default ∅ (tmpdirs w !! t).

Definition user_dir (d : str) (w : World) : Dir := default ∅ (dirs w !! d).

Definition set_tmp (t : positive) (D : Dir) (w : World) : World :=
  mkWorld (<[t := D]> (tmpdirs w)) (dirs w) (log w).

Definition set_dir (d : str) (D : Dir) (w : World) : World :=
  mkWorld (tmpdirs w) (<[d := D]> (dirs w)) (log w).

Definition write_file (D : Dir) (nf : str * File) : Dir := <[nf.1 := nf.2]> D.

Definition write_files (wh : Where) (files : list (str * File)) (w : World) : World :=
  match wh with
  | InTmp t => set_tmp t (foldl write_file (tmp_dir t w) files) w
  | InDir d => set_dir d (foldl write_file (user_dir d w) files) w
  end.

Section Calls.

Context (E : Env).

Definition shutil_which (tool : str) : M bool := gets (which E tool).

(** [subprocess.run(argv, capture_output=True, text=True, timeout=t)] *)
Definition subprocess_run (argv : list str) (timeout : N) : M CompletedProcess :=
  p ← gets (proc E argv);
  emit (Spawn argv timeout);;
  match p with
  | LaunchError msg => raise (Exception msg)
  | Exited seconds out rc =>
      if timeout <? seconds then raise (Exception (lit "TimeoutExpired"))
      else mret (mkCompleted out rc)
  end.

(** [with YoutubeDL(opts) as ydl: ydl.extract_info(url, download=True)],
    and [ydl.download([url])]. *)
Definition ydl_download (opts : YdlOpts) (url : str) : M unit :=
  r ← gets (ydl E opts url);
  emit (Ydl opts url);;
  modify (write_files (outtmpl opts).1 r.1);;
  match r.2 with
  | Some msg => raise (Exception msg)
  | None => mret tt
  end.

(** [Path.mkdir(parents=True, exist_ok=True)], [os.makedirs(d, exist_ok=True)] *)
Definition mkdir (d : str) : M unit :=
  fail_if (mkdir_error E d);;
  modify (fun w => set_dir d (user_dir d w) w).

(** [Path(d).exists()] for a directory.  [Path.exists] answers False when
    [os.stat] says that the path is missing; another error of [os.stat], as
    for a name that is too long or a parent that may not be searched, is
    raised again by pathlib up to Python 3.12: [stat_error] is the error
    that is let through, if any. *)
Definition dir_exists (d : str) : M bool :=
  fail_if (stat_error E d);;
  gets (fun w => bool_decide (is_Some (dirs w !! d))).

(** [(d / name).exists()] *)
Definition path_exists (d name : str) : M bool :=
  fail_if (stat_error E (path_join d name));;
  gets (fun w => bool_decide (is_Some (user_dir d w !! name))).

(** [(d / name).stat()]: the file.  A missing path is an error here. *)
Definition path_stat (d name : str) : M File :=
  fail_if (stat_error E (path_join d name));;
  o ← gets (fun w => user_dir d w !! name);
  match o with
  | None => raise (Exception (lit "FileNotFoundError"))
  | Some f => mret f
  end.

(** [open(d / name, mode rb).read()] *)
Definition read_bytes (d name : str) : M (list N) :=
  fail_if (read_error E (path_join d name));;
  o ← gets (fun w => user_dir d w !! name);
  match o with
  | None => raise (Exception (lit "FileNotFoundError"))
  | Some f => mret (f_data f)
  end.

(** The exit of [tempfile.TemporaryDirectory]: the directory is removed
    with its contents, or the removal raises and leaves the directory with
    some of them. *)
Definition cleanup (t : positive) (w : World) : option str * World :=
  match rmtree_error E t w with
  | None => (None, mkWorld (delete t (tmpdirs w)) (dirs w) (log w))
  | Some (msg, remains) =>
      (Some msg,
       set_tmp t (filter (fun nf : str * File => remains nf.1 = true) (tmp_dir t w)) w)
  end.

(** [with tempfile.TemporaryDirectory() as tmpdir: body]: a new, empty
    directory, whose creation is taken to succeed.  However the body ends,
    the exit is run; an error of the exit takes the place of the result or
    of the error of the body. *)
Definition with_TemporaryDirectory {A} (body : positive -> M A) : M A := fun w =>
  let t := fresh (dom (tmpdirs w)) in
  let rw := body t (set_tmp t ∅ w) in
  match rw.1 with
  | Diverged => rw
  | r =>
      match cleanup t rw.2 with
      | (None, w') => (r, w')
      | (Some msg, w') => (Raised (Exception msg), w')
      end
  end.

(** [(tmp / cand).unlink()] *)
Definition unlink (t : positive) (cand : str) : M unit :=
  fail_if (unlink_error E t cand);;
  o ← gets (fun w => tmp_dir t w !! cand);
  match o with
  | None => raise (Exception (lit "FileNotFoundError"))
  | Some _ => modify (fun w => set_tmp t (delete cand (tmp_dir t w)) w)
  end.

(** [os.replace(tmp / cand, d / dest)] *)
Definition os_replace (t : positive) (cand d dest : str) : M unit :=
  fail_if (replace_error E t cand d dest);;
  o ← gets (fun w => tmp_dir t w !! cand);
  match o with
  | None => raise (Exception (lit "FileNotFoundError"))
  | Some f =>
      modify (fun w => set_dir d (<[dest := f]> (user_dir d w))
                         (set_tmp t (delete cand (tmp_dir t w)) w))
  end.

(** [os.chmod(d / dest, mode)] *)
Definition os_chmod (d dest : str) (mode : N) : M unit :=
  fail_if (chmod_error E d dest);;
  o ← gets (fun w => user_dir d w !! dest);
  match o with
  | None => raise (Exception (lit "FileNotFoundError"))
  | Some f => modify (fun w => set_dir d (<[dest := mkFile (f_data f) mode]> (user_dir d w)) w)
  end.

End Calls.

(** *** pathlib *)

(** [name.rfind(c)] *)
Fixpoint rfind (c : char) (name : str) : option nat :=
  match name with
  | [] => None
  | x :: r =>
      match rfind c r with
      | Some i => Some (S i)
      | None => if x =? c then Some 0%nat else None
      end
  end.

(** [PurePath.stem]: the name without its last suffix; a dot at the start
    or at the end of the name starts no suffix. *)
Definition stem (name : str) : str :=
  match rfind 46 name with
  | Some i =>
      if ((0 <? i)%nat && (i <? length name - 1)%nat) then take i name else name
  | None => name
  end.

Fixpoint insert_sorted (x : str) (l : list str) : list str :=
  match l with
  | [] => [x]
  | y :: r => if str_le x y then x :: l else y :: insert_sorted x r
  end.

(** [sorted(paths)] for paths of one directory: by name. *)
Definition sorted (l : list str) : list str := foldr insert_sorted [] l.

(** The sorted [glob] of the pattern [*.mp3] in the temporary directory. *)
Definition glob_mp3 (t : positive) : M (list str) :=
  gets (fun w =>
    sorted (filter (fun n => ends_with (lit ".mp3") n = true)
                   (map fst (map_to_list (tmp_dir t w))))).

End Sys.

Import Sys.

(** ** streamlit_app.py: validation and placement *)

Module StreamlitApp.

Section Pipeline.

Context (E : Env).

Definition ffprobe_argv (path : str) : list str :=
  [lit "ffprobe"; lit "-v"; lit "error"; lit "-show_entries";
   lit "format=format_name"; lit "-of";
   lit "default=noprint_wrappers=1:nokey=1"; path].

Definition ffmpeg_argv (path : str) : list str :=
  [lit "ffmpeg"; lit "-v"; lit "error"; lit "-i"; path; lit "-f"; lit "null"; lit "-"].

Definition ffprobe_recognizes_mp3 (path : str) : M bool :=
  found ← shutil_which E (lit "ffprobe");
  if negb found then mret false
  else
    try_except
      (completed ← subprocess_run E (ffprobe_argv path) 15;
       let out := lower E (stdout completed) in
       mret (contains (lit "mp3") out))
      (fun _ => mret false).

(** Lines 139 to 151: the verdict on one candidate. *)
Definition validate (path : str) : M bool :=
  ok ← ffprobe_recognizes_mp3 path;
  if negb ok then
    try_except
      (res ← subprocess_run E (ffmpeg_argv path) 20;
       mret (returncode res =? 0)%Z)
      (fun _ => mret false)
  else mret ok.

(** Lines 153 to 160: a rejected candidate is reported and removed. *)
Definition discard (tmp : positive) (cand : str) : M unit :=
  emit (St StWarning (lit "Discarding unrecognized or invalid file: " ++ cand));;
  try_except (unlink E tmp cand) (fun _ => mret tt).

(** The name tried at counter [i]: the stem, a space, the counter in
    parentheses, the extension. *)
Definition numbered (stem : str) (i : N) : str :=
  stem ++ lit " (" ++ str_of_int i ++ lit ").mp3".

(** Lines 170 to 172: [while dest.exists()], with fuel. *)
Fixpoint while_dest_exists (fuel : nat) (final_out_dir stem dest : str) (i : N) : M str :=
  match fuel with
  | O => diverge
  | S fuel' =>
      e ← path_exists E final_out_dir dest;
      if e : bool then while_dest_exists fuel' final_out_dir stem (numbered stem i) (i + 1)
      else mret dest
  end.

(** Lines 163 to 172: the destination name of a candidate.  The loop tries
    the plain name and then one numbered name per turn, so it makes at most
    two more tests than the directory has entries. *)
Definition resolve_dest (final_out_dir cand : str) : M str :=
  let safe_name := safe_filename (stem cand) default_max_length ++ lit ".mp3" in
  e ← path_exists E final_out_dir safe_name;
  if e : bool then
    fuel ← gets (fun w => (2 + size (user_dir final_out_dir w))%nat);
    while_dest_exists fuel final_out_dir
      (safe_filename (stem cand) default_max_length) safe_name 1
  else mret safe_name.

(** Lines 162 to 182: an accepted candidate is moved into place. *)
Definition place (tmp : positive) (final_out_dir cand : str)
    (accepted : list str) : M (list str) :=
  try_except
    (dest ← resolve_dest final_out_dir cand;
     os_replace E tmp cand final_out_dir dest;;
     try_except (os_chmod E final_out_dir dest 384) (fun _ => mret tt);;
     mret (accepted ++ [dest]))
    (fun e : str =>
       emit (St StError (lit "Failed to move validated file into place: " ++ e));;
       mret accepted).

(** Lines 137 to 182: [for cand in candidates]. *)
Fixpoint for_candidates (tmp : positive) (final_out_dir : str)
    (candidates : list str) (accepted : list str) : M (list str) :=
  match candidates with
  | [] => mret accepted
  | cand :: rest =>
      ok ← validate (path_join (tmp_path E tmp) cand);
      if negb ok then
        discard tmp cand;;
        for_candidates tmp final_out_dir rest accepted
      else
        accepted ← place tmp final_out_dir cand accepted;
        for_candidates tmp final_out_dir rest accepted
  end.

Definition ydl_opts (tmp : positive) (quality : str) : YdlOpts :=
  {| format := lit "bestaudio/best";
     outtmpl := (InTmp tmp, lit "%(title)s.%(ext)s");
     noplaylist := false;
     postprocessor_key := lit "FFmpegExtractAudio";
     preferredcodec := lit "mp3";
     preferredquality := quality;
     progress_hooks := false;
     quiet := false;
     no_warnings := false |}.

Definition download_and_validate (url final_out_dir quality : str) : M (list str) :=
  mkdir E final_out_dir;;
  with_TemporaryDirectory E (fun tmp =>
    ydl_download E (ydl_opts tmp quality) url;;
    candidates ← glob_mp3 tmp;
    for_candidates tmp final_out_dir candidates []).

(** *** The page *)

(** What the user has entered when the script runs. *)
Record Widgets := mkWidgets {
  url_input : str;
  save_option : nat;
  custom_path : str;
  quality_choice : nat;
  download_clicked : bool
}.

(** [st.selectbox(label, options, index=k)]: the chosen option; the page
    starts on option [k]. *)
Definition selectbox {A} (options : list A) (index : nat) (chosen : nat) (d : A) : A :=
  nth chosen options (nth index options d).

Definition bitrates : list N := [128; 192; 256; 320].

Definition DOWNLOAD_DIR : str := path_join (home E) (lit "Downloads").

Definition out_dir_of (ui : Widgets) : str :=
  match save_option ui with
  | O => DOWNLOAD_DIR
  | S O => path_join (home E) (lit "Desktop")
  | _ => custom_path ui
  end.

(** [k] as two decimal digits, for [k] below 100. *)
Definition two_digits (k : N) : str := str_of_int (k / 10) ++ str_of_int (k mod 10).

(** A size in bytes, in megabytes with two decimals: the quotient by
    1024 * 1024 under the format [.2f].  For a size below 2^53 the
    quotient is exact as a float, and the format rounds its value to the
    nearest hundredth, to the even one when two are as near. *)
Definition fmt_mb (size : N) : str :=
  let n := 100 * size in
  let q := n / 1048576 in
  let r := n mod 1048576 in
  let h := if (524288 <? r) || ((r =? 524288) && N.odd q) then q + 1 else q in
  str_of_int (h / 100) ++ lit "." ++ two_digits (h mod 100).

(** Lines 260 to 275: the row of one file, with its name, its size and its
    download button. *)
Definition show_file (out_path f : str) : M unit :=
  stat ← path_stat E out_path f;
  let size := N.of_nat (length (f_data stat)) in
  fail_if (mtime_error E (path_join out_path f));;
  emit (St StMarkdown (lit "<div class='file-row'><div class='file-name'>" ++ f
                       ++ lit "</div></div>"));;
  emit (St StMarkdown (lit "<div class='file-meta'>" ++ fmt_mb size ++ lit " MB</div>"));;
  data ← read_bytes E out_path f;
  emit (StDownloadButton f data).

(** Lines 258 to 277: one row per file; an error in a row is shown, and the
    next row follows. *)
Fixpoint show_files (out_path : str) (files : list str) : M unit :=
  match files with
  | [] => mret tt
  | f :: rest =>
      try_except (show_file out_path f)
        (fun e : str =>
           emit (St StError (lit "Could not prepare download for " ++ f ++ lit ": " ++ e)));;
      show_files out_path rest
  end.

(** Lines 235 to 277: what follows the test of line 234. *)
Definition download_into (url out_path : str) (quality : N) (ex : bool) : M unit :=
  made ← (if negb ex then
            try_except (mkdir E out_path;; mret true)
              (fun e : str => emit (St StError (lit "Could not create output directory: " ++ e));;
                        mret false)
          else mret true);
  if negb made then mret tt
  else
    a ← shutil_which E (lit "ffmpeg");
    b ← shutil_which E (lit "ffprobe");
    (if negb a || negb b then
       emit (St StWarning (lit "ffmpeg/ffprobe not found on PATH. Audio validation may be limited. Install ffmpeg to improve security checks."))
     else mret tt);;
    emit (St StSpinner (lit "Downloading, converting and validating " ++ [8212]
                        ++ lit " this may take a while..."));;
    r ← try_except
          (files ← download_and_validate url out_path (str_of_int quality);
           mret (Some files))
          (fun e : str => emit (St StError (lit "Download/validation failed: " ++ e));;
                    mret None);
    match r with
    | None => mret tt
    | Some [] =>
        emit (St StInfo (lit "No validated MP3 files available after download. Check the server logs or try a different URL."))
    | Some files =>
        emit (St StSuccess (lit "Completed: " ++ str_of_int (N.of_nat (length files))
                            ++ lit " validated file(s) available in " ++ out_path));;
        show_files out_path files
    end.

(** Lines 223 to 277: what [main] does once the button is pressed.  The
    test of line 234 is outside every [try]. *)
Definition on_download (url out_dir : str) (quality : N) : M unit :=
  if bool_decide (url = []) then emit (St StError (lit "Please provide a YouTube URL."))
  else if bool_decide (out_dir = []) then
    emit (St StError (lit "Please select or enter an output folder before downloading."))
  else
    let out_path := path_of E out_dir in
    ex ← dir_exists E out_path;
    download_into url out_path quality ex.

(** The text of lines 190 to 198, with its line ends and its indentation;
    8212 is the dash and 8594 the arrow of the title. *)
Definition hero : str :=
  [10] ++ lit "        <div style='margin-bottom:8px'>" ++
  [10] ++ lit "          <div class='hero-title'>SongDown " ++ [8212] ++ lit " YouTube "
       ++ [8594] ++ lit " MP3</div>" ++
  [10] ++ lit "          <div class='hero-sub'>Secure prototype " ++ [8212]
       ++ lit " files validated and saved where you choose</div>" ++
  [10] ++ lit "        </div>" ++
  [10] ++ lit "        ".

(** The text of line 221; 34 is the double quote. *)
Definition selected_folder_text (out_dir : str) : str :=
  lit "**Selected folder:** <span class=" ++ [34] ++ lit "card-sub" ++ [34] ++ lit ">"
  ++ (if bool_decide (out_dir = []) then lit "None" else out_dir) ++ lit "</span>".

(** [main]: the input widgets are given by their values, what the page
    writes is logged. *)
Definition main (ui : Widgets) : M unit :=
  emit (St StMarkdown hero);;
  let url := url_input ui in
  let out_dir := out_dir_of ui in
  let quality := selectbox bitrates 1 (quality_choice ui) 192 in
  emit (St StMarkdown (selected_folder_text out_dir));;
  if download_clicked ui then on_download url out_dir quality else mret tt.

End Pipeline.

End StreamlitApp.

Import StreamlitApp.

(** ** yt_to_mp3.py: the command line *)

Module YtToMp3.

Section Cli.

Context (E : Env).

Definition check_ffmpeg : M bool := shutil_which E (lit "ffmpeg").

Definition ydl_opts (out_dir prefer_quality : str) : YdlOpts :=
  {| format := lit "bestaudio/best";
     outtmpl := (InDir out_dir, lit "%(title)s.%(ext)s");
     noplaylist := false;
     postprocessor_key := lit "FFmpegExtractAudio";
     preferredcodec := lit "mp3";
     preferredquality := prefer_quality;
     progress_hooks := true;
     quiet := false;
     no_warnings := true |}.

Definition download_mp3 (url out_dir prefer_quality : str) : M unit :=
  mkdir E out_dir;;
  ff ← check_ffmpeg;
  (if negb ff then
     emit (Stdout (lit "Warning: ffmpeg not found on PATH. yt-dlp will fail to convert to MP3."))
   else mret tt);;
  try_except (ydl_download E (ydl_opts out_dir prefer_quality) url)
    (fun exc : str => emit (Stdout (lit "Download failed: " ++ exc));;
                raise (SystemExit 1)).

(** The [argparse.Namespace] of [parse_args]: the positional [url],
    [-o/--output], [-q/--quality] and [--no-playlist]. *)
Record Namespace := mkNamespace {
  url : str;
  output : str;
  quality : str;
  ns_noplaylist : bool
}.

(** The namespace when only the URL is given. *)
Definition default_args (u : str) : Namespace :=
  {| url := u;
     output := path_join (home E) (lit "Downloads");
     quality := lit "192";
     ns_noplaylist := false |}.

(** [main], from the namespace that [parse_args] returns. *)
Definition main (args : Namespace) : M unit :=
  let url := url args in
  let out_dir := output args in
  (if ns_noplaylist args then mret tt else mret tt);;
  emit (Stdout (lit "Downloading: " ++ url ++ [10] ++ lit "Output directory: " ++ out_dir));;
  download_mp3 url out_dir (quality args);;
  emit (Stdout (lit "Done.")).

End Cli.

End YtToMp3.

(** ** What the properties are stated with *)

Module Spec.

Import StreamlitApp.

(** The names tried for a sanitized stem, in order: the plain name, then
    the numbered ones from 1. *)
Definition nth_name (stem : str) (k : N) : str :=
  if k =? 0 then stem ++ lit ".mp3" else numbered stem k.

Section Verdicts.

Context (E : Env).

(** The inspection accepts: the tool is found, it ends within its 15
    seconds, and its report has the token. *)
Definition primary_accepts (path : str) (w : World) : bool :=
  which E (lit "ffprobe") w &&
  match proc E (ffprobe_argv path) w with
  | Exited seconds out _ => negb (15 <? seconds) && contains (lit "mp3") (lower E out)
  | LaunchError _ => false
  end.

(** The inspection raises: the tool is found, and cannot be started or
    runs for too long. *)
Definition primary_raises (path : str) (w : World) : bool :=
  which E (lit "ffprobe") w &&
  match proc E (ffprobe_argv path) w with
  | Exited seconds _ _ => 15 <? seconds
  | LaunchError _ => true
  end.

(** The world after the inspection: the tool was started if it was found. *)
Definition after_primary (path : str) (w : World) : World :=
  if which E (lit "ffprobe") w then log_event (Spawn (ffprobe_argv path) 15) w else w.

(** The decode ends within its 20 seconds with exit status 0. *)
Definition fallback_accepts (path : str) (w : World) : bool :=
  match proc E (ffmpeg_argv path) w with
  | Exited seconds _ rc => negb (20 <? seconds) && (rc =? 0)%Z
  | LaunchError _ => false
  end.

Definition fallback_raises (path : str) (w : World) : bool :=
  match proc E (ffmpeg_argv path) w with
  | Exited seconds _ _ => 20 <? seconds
  | LaunchError _ => true
  end.

(** The verdict on a candidate: the inspection accepts, or else the decode
    does. *)
Definition verdict (path : str) (w : World) : bool :=
  primary_accepts path w || fallback_accepts path (after_primary path w).

(** The child processes started for a candidate. *)
Definition probe_events (path : str) (w : World) : list Event :=
  if which E (lit "ffprobe") w then [Spawn (ffprobe_argv path) 15] else [].

Definition decode_events (path : str) (w : World) : list Event :=
  if primary_accepts path w then [] else [Spawn (ffmpeg_argv path) 20].

(** Lines 174 to 180: the move and the change of mode, once the
    destination name is known. *)
Definition move (t : positive) (cand d dest : str) (acc : list str) : M (list str) :=
  os_replace E t cand d dest;;
  try_except (os_chmod E d dest 384) (fun _ => mret tt);;
  mret (acc ++ [dest]).

(** Lines 111 to 184: the block under [with tempfile.TemporaryDirectory()]. *)
Definition body (url final_out_dir quality : str) (tmp : positive) : M (list str) :=
  ydl_download E (ydl_opts tmp quality) url;;
  candidates ← glob_mp3 tmp;
  for_candidates E tmp final_out_dir candidates [].

End Verdicts.

(** The call returned or raised. *)
Definition finished {A} (r : Result A) : Prop :=
  match r with
  | Diverged => False
  | _ => True
  end.

(** What a run leaves: a list of distinct names that were free and are now
    taken, or an exception; never a loop without end. *)
Definition outcome_ok (d : str) (w w' : World) (r : Result (list str)) : Prop :=
  match r with
  | Ok accepted =>
      NoDup accepted /\
      forall n, n ∈ accepted -> user_dir d w !! n = None /\ is_Some (user_dir d w' !! n)
  | Raised (Exception _) => True
  | Raised (SystemExit _) => False
  | Diverged => False
  end.

(** Every file of every user directory is still there, unchanged. *)
Definition dirs_kept (w w' : World) : Prop :=
  forall d n f, user_dir d w !! n = Some f -> user_dir d w' !! n = Some f.

(** No temporary directory other than [t] is touched. *)
Definition tmp_framed (t : positive) (w w' : World) : Prop :=
  forall t', t' <> t -> tmpdirs w' !! t' = tmpdirs w !! t'.

(** The log has grown, by events that satisfy [P]. *)
Definition logged (P : Event -> Prop) (w w' : World) : Prop :=
  exists new, log w' = log w ++ new /\ Forall P new.

Definition frame (t : positive) (P : Event -> Prop) (w w' : World) : Prop :=
  tmp_framed t w w' /\ dirs_kept w w' /\ logged P w w'.

(** The counters below [k]. *)
Definition below (k : nat) : list N := N.of_nat <$> seq 0 k.


(** Every run of [m] only adds events that satisfy [P] to the log. *)
Definition keeps (P : Event -> Prop) {A} (m : M A) : Prop :=
  forall w, logged P w (m w).2.

(** A fetch, if the event is one, expands playlists. *)
Definition playlists_expanded (e : Event) : Prop :=
  match e with
  | Ydl opts _ => noplaylist opts = false
  | _ => True
  end.


(** *** Worlds and environments of the examples *)

Definition ascii_lower (s : str) : str :=
  map (fun c => if (65 <=? c) && (c <=? 90) then c + 32 else c) s.

(** The components of a path between its slashes; [cur] is the component
    being read, backwards. *)
Fixpoint split_slash (s cur : str) : list str :=
  match s with
  | [] => [rev cur]
  | c :: r => if c =? 47 then rev cur :: split_slash r [] else split_slash r (c :: cur)
  end.

Fixpoint join_slash (parts : list str) : str :=
  match parts with
  | [] => []
  | [p] => p
  | p :: r => p ++ lit "/" ++ join_slash r
  end.

(** [str(Path(s))] on a POSIX system: empty components and dots are
    dropped, so a slash is not repeated and none ends the path; one slash
    at the start is kept, and so are two when there are no more; the empty
    path is the dot. *)
Definition posix_path (s : str) : str :=
  let parts := filter (fun p => p <> [] /\ p <> lit ".") (split_slash s []) in
  let root := if starts_with (lit "///") s then lit "/"
              else if starts_with (lit "//") s then lit "//"
              else if starts_with (lit "/") s then lit "/" else [] in
  match root, parts with
  | [], [] => lit "."
  | _, _ => root ++ join_slash parts
  end.

(** The last component of a path. *)
Definition basename (p : str) : str :=
  match rfind 47 p with
  | Some i => drop (S i) p
  | None => p
  end.

(** The length of a name in bytes, under UTF-8. *)
Definition utf8_len (s : str) : N :=
  foldr (fun c n => n + (if c <? 128 then 1 else if c <? 2048 then 2
                         else if c <? 65536 then 3 else 4)) 0 s.

(** The file system refuses a name of more than 255 bytes. *)
Definition name_max_error (p : str) : option str :=
  if 255 <? utf8_len (basename p) then Some (lit "[Errno 36] File name too long") else None.

(** Every tool is found and succeeds, the report names the format, the
    fetch writes the given files, and no call of the file system fails. *)
Definition env_of (files : list (str * File)) : Env :=
  {| which := fun _ _ => true;
     proc := fun _ _ => Exited 1 (lit "mp3") 0;
     ydl := fun _ _ _ => (files, None);
     mkdir_error := fun _ _ => None;
     unlink_error := fun _ _ _ => None;
     replace_error := fun _ _ _ _ _ => None;
     chmod_error := fun _ _ _ => None;
     stat_error := fun _ _ => None;
     rmtree_error := fun _ _ => None;
     mtime_error := fun _ _ => None;
     read_error := fun _ _ => None;
     tmp_path := fun _ => lit "/tmp/tmpdir";
     home := lit "/home/user";
     lower := ascii_lower;
     path_of := posix_path |}.

(** As [env_of], with the behaviour of the child processes given. *)
Definition env_proc (p : list str -> Proc) (files : list (str * File)) : Env :=
  {| which := fun _ _ => true;
     proc := fun argv _ => p argv;
     ydl := fun _ _ _ => (files, None);
     mkdir_error := fun _ _ => None;
     unlink_error := fun _ _ _ => None;
     replace_error := fun _ _ _ _ _ => None;
     chmod_error := fun _ _ _ => None;
     stat_error := fun _ _ => None;
     rmtree_error := fun _ _ => None;
     mtime_error := fun _ _ => None;
     read_error := fun _ _ => None;
     tmp_path := fun _ => lit "/tmp/tmpdir";
     home := lit "/home/user";
     lower := ascii_lower;
     path_of := posix_path |}.

(** As [env_of], but the fetch raises after writing its files. *)
Definition env_fetch_fails (files : list (str * File)) : Env :=
  {| which := fun _ _ => true;
     proc := fun _ _ => Exited 1 (lit "mp3") 0;
     ydl := fun _ _ _ => (files, Some (lit "DownloadError"));
     mkdir_error := fun _ _ => None;
     unlink_error := fun _ _ _ => None;
     replace_error := fun _ _ _ _ _ => None;
     chmod_error := fun _ _ _ => None;
     stat_error := fun _ _ => None;
     rmtree_error := fun _ _ => None;
     mtime_error := fun _ _ => None;
     read_error := fun _ _ => None;
     tmp_path := fun _ => lit "/tmp/tmpdir";
     home := lit "/home/user";
     lower := ascii_lower;
     path_of := posix_path |}.

(** As [env_of], on a file system that refuses a name of more than 255
    bytes: [os.stat] and [os.replace] fail on such a name. *)
Definition env_name_max (files : list (str * File)) : Env :=
  {| which := fun _ _ => true;
     proc := fun _ _ => Exited 1 (lit "mp3") 0;
     ydl := fun _ _ _ => (files, None);
     mkdir_error := fun _ _ => None;
     unlink_error := fun _ _ _ => None;
     replace_error := fun _ _ _ dest _ => name_max_error dest;
     chmod_error := fun _ _ _ => None;
     stat_error := fun p _ => name_max_error p;
     rmtree_error := fun _ _ => None;
     mtime_error := fun _ _ => None;
     read_error := fun _ _ => None;
     tmp_path := fun _ => lit "/tmp/tmpdir";
     home := lit "/home/user";
     lower := ascii_lower;
     path_of := posix_path |}.

(** As [env_of], but the removal of a temporary directory fails on a file
    that may not be removed, and leaves what is in the directory. *)
Definition env_rmtree_fails (files : list (str * File)) : Env :=
  {| which := fun _ _ => true;
     proc := fun _ _ => Exited 1 (lit "mp3") 0;
     ydl := fun _ _ _ => (files, None);
     mkdir_error := fun _ _ => None;
     unlink_error := fun _ _ _ => None;
     replace_error := fun _ _ _ _ _ => None;
     chmod_error := fun _ _ _ => None;
     stat_error := fun _ _ => None;
     rmtree_error := fun _ _ => Some (lit "[Errno 1] Operation not permitted", fun _ => true);
     mtime_error := fun _ _ => None;
     read_error := fun _ _ => None;
     tmp_path := fun _ => lit "/tmp/tmpdir";
     home := lit "/home/user";
     lower := ascii_lower;
     path_of := posix_path |}.

(** A title of 83 characters of three bytes each. *)
Definition long_title : str := repeat 20013 83.

Definition is_ffprobe (argv : list str) : bool :=
  match argv with
  | tool :: _ => bool_decide (tool = lit "ffprobe")
  | [] => false
  end.

(** The inspection reports another format, the decode succeeds. *)
Definition proc_other_format (argv : list str) : Proc :=
  if is_ffprobe argv then Exited 1 (lit "wav") 0 else Exited 2 [] 0.

(** The inspection runs out of time, the decode succeeds. *)
Definition proc_probe_timeout (argv : list str) : Proc :=
  if is_ffprobe argv then Exited 16 [] 0 else Exited 2 [] 0.

Definition audio (n : N) : File := mkFile [n] 420.

(** A world with one temporary directory, which holds the given files. *)
Definition world_tmp (files : list (str * File)) : World :=
  mkWorld {[ 1%positive := list_to_map files ]} ∅ [].

Definition song_args (flag : bool) : YtToMp3.Namespace :=
  YtToMp3.mkNamespace (lit "https://youtu.be/x") (lit "out") (lit "999") flag.

Definition empty_world : World := mkWorld ∅ ∅ [].

(** A world with one temporary directory and the directory [out], each
    with the given files. *)
Definition world_both (scratch files : list (str * File)) : World :=
  mkWorld {[ 1%positive := list_to_map scratch ]} {[ lit "out" := list_to_map files ]} [].

(** A world whose directory [out] holds the given files. *)
Definition world_with (files : list (str * File)) : World :=
  mkWorld ∅ {[ lit "out" := list_to_map files ]} [].

End Spec.

Import Spec.

(** ** What the further properties are stated with *)

Module Obs.

(** A character that the sanitizer may delete: of the forbidden class, or
    whitespace. *)
Definition droppable (c : char) : bool := forbidden c || is_space c.

(** The characters of a name that are neither forbidden nor whitespace. *)
Definition kept (s : str) : str := filter (fun c => droppable c = false) s.

(** The characters of a name that are not whitespace. *)
Definition solid (s : str) : str := filter (fun c => is_space c = false) s.

(** Every whitespace character of the name is the plain space. *)
Definition plain_spaces (s : str) : bool :=
  forallb (fun c => negb (is_space c) || (c =? SPACE)) s.

Definition starts_with_space (s : str) : bool :=
  match s with
  | [] => false
  | c :: _ => is_space c
  end.

(** A name that needs no sanitizing, but for its length. *)
Definition is_safe_name (s : str) : bool :=
  negb (has_forbidden s) && plain_spaces s && negb (has_ws_run s)
  && negb (starts_with_space s) && negb (ends_in_space s).

(** The world after the move of a candidate, before the change of mode. *)
Definition moved (t : positive) (cand d dest : str) (f : File) (w : World) : World :=
  set_dir d (<[dest := f]> (user_dir d w)) (set_tmp t (delete cand (tmp_dir t w)) w).

(** The file under its destination name after the change of mode was
    tried: with mode 0o600 if that worked, as it was if not. *)
Definition placed_file (E : Env) (t : positive) (cand d dest : str) (f : File)
    (w : World) : File :=
  match chmod_error E d dest (moved t cand d dest f w) with
  | None => mkFile (f_data f) 384
  | Some _ => f
  end.

Definition discard_warning (cand : str) : Event :=
  St StWarning (lit "Discarding unrecognized or invalid file: " ++ cand).

Definition place_error (msg : str) : Event :=
  St StError (lit "Failed to move validated file into place: " ++ msg).

(** Every entry of a user directory was there before, or is one of the
    given names in directory [d]. *)
Definition dirs_gain (d : str) (names : list str) (w w' : World) : Prop :=
  forall d' n, is_Some (user_dir d' w' !! n) ->
    is_Some (user_dir d' w !! n) \/ (d' = d /\ n ∈ names).

(** A name of the destination: it ends in .mp3 and has no forbidden
    character. *)
Definition good_name (n : str) : Prop :=
  ends_with (lit ".mp3") n = true /\ has_forbidden n = false.

Definition is_fetch (e : Event) : bool :=
  match e with
  | Ydl _ _ => true
  | _ => false
  end.

(** The path of a candidate, as the tools are given it. *)
Definition cand_path (E : Env) (t : positive) (cand : str) : str :=
  path_join (tmp_path E t) cand.

(** The temporary directory that a run started in [w] creates. *)
Definition scratch_of (w : World) : positive := fresh (dom (tmpdirs w)).

(** The world when the block under [with] is entered: the destination
    exists, the temporary directory is new and empty. *)
Definition opened (d : str) (w : World) : World :=
  set_tmp (scratch_of w) ∅ (set_dir d (user_dir d w) w).

(** The error of the fetch of a run, if it raises. *)
Definition fetch_error (E : Env) (url d quality : str) (w : World) : option str :=
  (ydl E (ydl_opts (scratch_of w) quality) url (opened d w)).2.

(** The world after the fetch of a run. *)
Definition fetched (E : Env) (url d quality : str) (w : World) : World :=
  write_files (InTmp (scratch_of w))
    (ydl E (ydl_opts (scratch_of w) quality) url (opened d w)).1
    (log_event (Ydl (ydl_opts (scratch_of w) quality) url) (opened d w)).

(** The world when the block under [with] is left. *)
Definition closed (t : positive) (w : World) : World :=
  mkWorld (delete t (tmpdirs w)) (dirs w) (log w).

(** The names of a directory that match the pattern of the glob. *)
Definition mp3_names (D : gmap str File) : list str :=
  filter (fun n => ends_with (lit ".mp3") n = true) (map fst (map_to_list D)).

(** [a <= b] on names, as a relation. *)
Definition str_le_rel (a b : str) : Prop := str_le a b = true.

(** No temporary directory that was there is touched. *)
Definition tmp_kept (w w' : World) : Prop :=
  forall t D, tmpdirs w !! t = Some D -> tmpdirs w' !! t = Some D.

(** Nothing that was there is touched: no temporary directory, and no file
    of a user directory. *)
Definition all_kept (w w' : World) : Prop := tmp_kept w w' /\ dirs_kept w w'.

(** And no temporary directory is left behind. *)
Definition tidy_kept (w w' : World) : Prop := tmpdirs w' = tmpdirs w /\ dirs_kept w w'.

(** A call that changes the world within [R]; it returns, or, unless
    [calm], raises an exception that [except Exception] catches. *)
Definition tame (R : World -> World -> Prop) (calm : bool) {A} (m : M A) : Prop :=
  forall w,
    R w (m w).2 /\
    match (m w).1 with
    | Ok _ => True
    | Raised (Exception _) => calm = false
    | Raised (SystemExit _) => False
    | Diverged => False
    end.

(** What the page writes on every run: the title, then the selected
    folder. *)
Definition hero_shown : Event := St StMarkdown hero.

Definition selected_folder (E : Env) (ui : Widgets) : Event :=
  St StMarkdown (selected_folder_text (out_dir_of E ui)).

(** The world once the page has written them. *)
Definition page_shown (E : Env) (ui : Widgets) (w : World) : World :=
  log_event (selected_folder E ui) (log_event hero_shown w).

(** The destination of the page, as a path. *)
Definition out_path_of (E : Env) (ui : Widgets) : str := path_of E (out_dir_of E ui).

(** The error of the first of the names tried, from counter [i] on and for
    [n] more, on which [exists] raises. *)
Fixpoint search_error (E : Env) (d stem : str) (w : World) (n : nat) (i : N) : option str :=
  match stat_error E (path_join d (nth_name stem i)) w with
  | Some msg => Some msg
  | None =>
      match n with
      | O => None
      | S n' => search_error E d stem w n' (i + 1)
      end
  end.

(** What leaving the block under [with] makes of the result of the block. *)
Definition leave {A} (E : Env) (t : positive) (rw : Result A * World) : Result A * World :=
  match cleanup E t rw.2 with
  | (None, w') => (rw.1, w')
  | (Some msg, w') => (Raised (Exception msg), w')
  end.

(** The block under [with] of a run started in [w]. *)
Definition block (E : Env) (url d quality : str) (w : World) : Result (list str) * World :=
  body E url d quality (scratch_of w) (opened d w).

(** The first line of the command line, and the worlds it goes through
    before the fetch. *)
Definition cli_banner (args : YtToMp3.Namespace) : Event :=
  Stdout (lit "Downloading: " ++ YtToMp3.url args ++ [10]
          ++ lit "Output directory: " ++ YtToMp3.output args).

Definition cli_warning : Event :=
  Stdout (lit "Warning: ffmpeg not found on PATH. yt-dlp will fail to convert to MP3.").

Definition cli_made (args : YtToMp3.Namespace) (w : World) : World :=
  set_dir (YtToMp3.output args)
    (user_dir (YtToMp3.output args) (log_event (cli_banner args) w))
    (log_event (cli_banner args) w).

Definition cli_ready (E : Env) (args : YtToMp3.Namespace) (w : World) : World :=
  if which E (lit "ffmpeg") (cli_made args w) then cli_made args w
  else log_event cli_warning (cli_made args w).

Definition cli_opts (args : YtToMp3.Namespace) : YdlOpts :=
  YtToMp3.ydl_opts (YtToMp3.output args) (YtToMp3.quality args).

(** The world after the fetch of the command line. *)
Definition cli_fetched (E : Env) (args : YtToMp3.Namespace) (w : World) : World :=
  write_files (InDir (YtToMp3.output args))
    (ydl E (cli_opts args) (YtToMp3.url args) (cli_ready E args w)).1
    (log_event (Ydl (cli_opts args) (YtToMp3.url args)) (cli_ready E args w)).

Definition fetch_failed (msg : str) : Event :=
  St StError (lit "Download/validation failed: " ++ msg).

End Obs.

(** ** yt_to_mp3.py: the progress hook

    The hook is called by yt-dlp with a dict.  Its numbers are ints or
    floats: the embedding is given the type of numbers, the test for zero
    that decides their truth value, and the progress line, which the
    source computes with a float division and a float format.  The
    division raises, an OverflowError, when a count is an int that no float
    can hold or when the quotient of two ints is one: the progress line is
    a text (on the left) or the error raised (on the right).
    [Stdout] carries the text that is printed, without its line end. *)

Module ProgressHook.

Section Hook.

Context {num : Type} (is_zero : num -> bool) (progress_line : num -> num -> str + str).

Inductive Value :=
| VNone
| VNum (n : num)
| VStr (s : str).

(** [d.get(key)] *)
Definition get (d : gmap str Value) (key : str) : Value := default VNone (d !! key).

(** The truth value of a value. *)
Definition truthy (v : Value) : bool :=
  match v with
  | VNone => false
  | VNum n => negb (is_zero n)
  | VStr s => negb (bool_decide (s = []))
  end.

(** [a or b] *)
Definition py_or (a b : Value) : Value := if truthy a then a else b.

(** [v == s] for a string literal [s] *)
Definition eq_str (v : Value) (s : str) : bool :=
  match v with
  | VStr s' => bool_decide (s' = s)
  | _ => false
  end.

Definition finished_line : str := [10] ++ lit "Download complete, converting to mp3...".

Definition progress_hook (d : gmap str Value) : M unit :=
  let status := get d (lit "status") in
  if eq_str status (lit "downloading") then
    let total_bytes := py_or (get d (lit "total_bytes")) (get d (lit "total_bytes_estimate")) in
    let downloaded := get d (lit "downloaded_bytes") in
    if truthy total_bytes && truthy downloaded then
      match downloaded, total_bytes with
      | VNum n, VNum t =>
          match progress_line n t with
          | inl line => emit (Stdout line)
          | inr error => raise (Exception error)
          end
      | _, _ => raise (Exception (lit "TypeError"))
      end
    else mret tt
  else if eq_str status (lit "finished") then emit (Stdout finished_line)
  else mret tt.

(** A value that can be counted with: a number or None. *)
Definition countable_value (v : Value) : bool :=
  match v with
  | VStr _ => false
  | _ => true
  end.

End Hook.

End ProgressHook.

Import Obs.

(** ** Properties *)

Module SanitizerFacts.

Lemma tidy_cons c r :
  tidy (c :: r) <-> (is_space c = true -> c = SPACE /\ head_ok r) /\ tidy r.
Proof. reflexivity. Qed.

Lemma sub_ws_tidy s :
  tidy (sub_ws s) /\ tidy (in_ws s) /\ head_ok (in_ws s).
Proof.
  induction s as [|c r (IH1 & IH2 & IH3)]; [simpl; auto|].
  cbn [sub_ws in_ws]. destruct (is_space c) eqn:Hc.
  - split; [|auto]. apply tidy_cons. auto.
  - assert (tidy (c :: sub_ws r)) by (apply tidy_cons; split; [congruence|auto]).
    split; [|split]; auto.
Qed.

Lemma lstrip_tidy s : tidy s -> tidy (lstrip s).
Proof.
  induction s as [|c r IH]; [auto|]. intros H. cbn [lstrip].
  destruct (is_space c); [|exact H]. apply IH. destruct H as [_ H]. exact H.
Qed.

Lemma lstrip_head s : head_ok (lstrip s).
Proof.
  induction s as [|c r IH]; [exact I|]. cbn [lstrip].
  destruct (is_space c) eqn:Hc; [exact IH|exact Hc].
Qed.

Lemma rstrip_cons c r :
  rstrip (c :: r) =
  if bool_decide (rstrip r = []) then (if is_space c then [] else [c]) else c :: rstrip r.
Proof. cbn [rstrip]. destruct (rstrip r); reflexivity. Qed.

Lemma rstrip_head s : head_ok s -> head_ok (rstrip s).
Proof.
  destruct s as [|c r]; [auto|]. intros H. rewrite rstrip_cons.
  simpl in H. case_bool_decide; [rewrite H|]; exact H.
Qed.

Lemma rstrip_tidy s : tidy s -> tidy (rstrip s).
Proof.
  induction s as [|c r IH]; [auto|]. intros H. destruct H as [Hc Hr].
  rewrite rstrip_cons. case_bool_decide.
  - destruct (is_space c) eqn:E; [exact I|]. apply tidy_cons. split; [congruence|exact I].
  - apply tidy_cons. split; [|auto]. intros Hs. destruct (Hc Hs) as [-> Hh].
    split; [reflexivity|]. apply rstrip_head, Hh.
Qed.

Lemma rstrip_last s : ends_in_space (rstrip s) = false.
Proof.
  unfold ends_in_space. induction s as [|c r IH]; [reflexivity|].
  rewrite rstrip_cons. case_bool_decide as Hr.
  - destruct (is_space c) eqn:E; simpl; [reflexivity|exact E].
  - destruct (rstrip r) as [|c' r'] eqn:E'; [done|]. rewrite last_cons_cons. exact IH.
Qed.

Lemma rstrip_id s : ends_in_space s = false -> rstrip s = s.
Proof.
  unfold ends_in_space. induction s as [|c r IH]; [reflexivity|].
  destruct r as [|c' r'].
  - simpl. intros ->. reflexivity.
  - rewrite last_cons_cons. intros H. rewrite rstrip_cons, (IH H).
    rewrite bool_decide_eq_false_2; done.
Qed.

Lemma rstrip_length s : (length (rstrip s) <= length s)%nat.
Proof.
  induction s as [|c r IH]; [reflexivity|]. rewrite rstrip_cons.
  case_bool_decide; [destruct (is_space c)|]; simpl; lia.
Qed.

Lemma lstrip_id s : head_ok s -> lstrip s = s.
Proof. destruct s as [|c r]; [reflexivity|]. simpl. intros ->. reflexivity. Qed.

Lemma in_ws_head s : head_ok s -> in_ws s = sub_ws s.
Proof. destruct s as [|c r]; [reflexivity|]. simpl. intros ->. reflexivity. Qed.

Lemma sub_ws_id s : tidy s -> sub_ws s = s.
Proof.
  induction s as [|c r IH]; [reflexivity|]. intros H. destruct H as [Hc Hr].
  cbn [sub_ws]. destruct (is_space c) eqn:E.
  - destruct (Hc eq_refl) as [-> Hh]. rewrite (in_ws_head _ Hh), (IH Hr). reflexivity.
  - rewrite (IH Hr). reflexivity.
Qed.

Lemma take_tidy k s : tidy s -> tidy (take k s).
Proof.
  revert k. induction s as [|c r IH]; intros [|k] H; try exact I.
  destruct H as [Hc Hr]. cbn [take]. apply tidy_cons. split; [|auto].
  intros Hs. destruct (Hc Hs) as [-> Hh]. split; [reflexivity|].
  destruct r, k; simpl; auto.
Qed.

Lemma take_head k s : head_ok s -> head_ok (take k s).
Proof. destruct s, k; simpl; auto. Qed.

Lemma sub_forbidden_clean s : has_forbidden (sub_forbidden s) = false.
Proof.
  unfold has_forbidden, sub_forbidden. induction s as [|c r IH]; [reflexivity|].
  rewrite filter_cons. case_decide as Hc; [|exact IH]. simpl. rewrite Hc, IH. reflexivity.
Qed.

Lemma sub_forbidden_id s : has_forbidden s = false -> sub_forbidden s = s.
Proof.
  unfold has_forbidden, sub_forbidden. induction s as [|c r IH]; [reflexivity|].
  simpl. intros H. apply orb_false_iff in H as [Hc Hr].
  rewrite filter_cons, decide_True by exact Hc. rewrite (IH Hr). reflexivity.
Qed.

Lemma sub_ws_clean s :
  has_forbidden s = false ->
  has_forbidden (sub_ws s) = false /\ has_forbidden (in_ws s) = false.
Proof.
  unfold has_forbidden. induction s as [|c r IH]; [auto|].
  simpl. intros H. apply orb_false_iff in H as [Hc Hr]. destruct (IH Hr) as [IH1 IH2].
  destruct (is_space c); simpl; rewrite ?Hc, ?IH1, ?IH2; auto.
Qed.

Lemma lstrip_clean s : has_forbidden s = false -> has_forbidden (lstrip s) = false.
Proof.
  unfold has_forbidden. induction s as [|c r IH]; [auto|]. intros H. cbn [lstrip].
  destruct (is_space c); [|exact H]. simpl in H. apply orb_false_iff in H as [_ Hr]. auto.
Qed.

Lemma rstrip_clean s : has_forbidden s = false -> has_forbidden (rstrip s) = false.
Proof.
  unfold has_forbidden. induction s as [|c r IH]; [auto|]. intros H.
  simpl in H. apply orb_false_iff in H as [Hc Hr]. rewrite rstrip_cons.
  case_bool_decide; [destruct (is_space c)|]; simpl; rewrite ?Hc, ?(IH Hr); auto.
Qed.

Lemma take_clean k s : has_forbidden s = false -> has_forbidden (take k s) = false.
Proof.
  unfold has_forbidden. revert k. induction s as [|c r IH]; intros [|k] H; try reflexivity.
  simpl in *. apply orb_false_iff in H as [Hc Hr]. rewrite Hc, (IH _ Hr). reflexivity.
Qed.

Lemma tidy_no_run s : tidy s -> has_ws_run s = false.
Proof.
  induction s as [|c r IH]; [reflexivity|]. intros H. destruct H as [Hc Hr].
  cbn [has_ws_run]. rewrite (IH Hr), orb_false_r.
  destruct (is_space c) eqn:E; [|reflexivity]. destruct (Hc eq_refl) as [_ Hh].
  destruct r; [reflexivity|exact Hh].
Qed.

Lemma normalized_facts s :
  has_forbidden (normalized s) = false /\ tidy (normalized s) /\
  head_ok (normalized s) /\ ends_in_space (normalized s) = false.
Proof.
  unfold normalized, strip. split; [|split; [|split]].
  - apply rstrip_clean, lstrip_clean, sub_ws_clean, sub_forbidden_clean.
  - apply rstrip_tidy, lstrip_tidy, sub_ws_tidy.
  - apply rstrip_head, lstrip_head.
  - apply rstrip_last.
Qed.

Lemma safe_filename_unfold s m :
  safe_filename s m =
  if (len (normalized s) >? m)%Z then slice_to (normalized s) m else normalized s.
Proof. reflexivity. Qed.

Lemma slice_to_take s m : exists k, slice_to s m = take k s.
Proof. unfold slice_to. destruct (m <? 0)%Z; eauto. Qed.

Lemma safe_filename_take s m : exists k, safe_filename s m = take k (normalized s).
Proof.
  rewrite safe_filename_unfold. destruct (len (normalized s) >? m)%Z.
  - apply slice_to_take.
  - exists (length (normalized s)). symmetry. apply firstn_all.
Qed.

Lemma safe_filename_facts s m :
  has_forbidden (safe_filename s m) = false /\ tidy (safe_filename s m) /\
  head_ok (safe_filename s m).
Proof.
  destruct (safe_filename_take s m) as [k ->].
  destruct (normalized_facts s) as (H1 & H2 & H3 & _).
  auto using take_clean, take_tidy, take_head.
Qed.

Lemma safe_filename_length s m : (0 <= m)%Z -> (len (safe_filename s m) <= m)%Z.
Proof.
  intros Hm. rewrite safe_filename_unfold.
  destruct (len (normalized s) >? m)%Z eqn:E.
  - unfold slice_to. rewrite (proj2 (Z.ltb_ge _ _)) by exact Hm.
    unfold len. rewrite length_take. lia.
  - rewrite Z.gtb_ltb in E. apply Z.ltb_ge in E. exact E.
Qed.

Lemma safe_filename_tidy_input t m :
  has_forbidden t = false -> tidy t -> head_ok t -> (len t <= m)%Z ->
  safe_filename t m = rstrip t.
Proof.
  intros Hc Ht Hh Hl. rewrite safe_filename_unfold. unfold normalized, strip.
  rewrite (sub_forbidden_id _ Hc), (sub_ws_id _ Ht), (lstrip_id _ Hh).
  assert ((len (rstrip t) >? m)%Z = false) as ->; [|reflexivity].
  rewrite Z.gtb_ltb. apply Z.ltb_ge. pose proof (rstrip_length t). unfold len in *. lia.
Qed.


End SanitizerFacts.

Import SanitizerFacts.

Module NamingFacts.

Lemma digits_inj d d' : digits d = digits d' -> d = d'.
Proof.
  revert d'. induction d; intros d' H; destruct d'; simpl in H; try discriminate;
    try reflexivity; injection H as H; f_equal; auto.
Qed.

Lemma str_of_int_inj i j : str_of_int i = str_of_int j -> i = j.
Proof.
  unfold str_of_int. intros H. apply digits_inj in H.
  rewrite <- (DecimalN.Unsigned.of_to i), <- (DecimalN.Unsigned.of_to j), H. reflexivity.
Qed.

Lemma numbered_inj stem i j : numbered stem i = numbered stem j -> i = j.
Proof.
  unfold numbered. intros H. apply app_inv_head, app_inv_head, app_inv_tail in H.
  apply str_of_int_inj, H.
Qed.

Lemma nth_name_inj stem i j : nth_name stem i = nth_name stem j -> i = j.
Proof.
  unfold nth_name. destruct (N.eqb_spec i 0) as [->|Hi], (N.eqb_spec j 0) as [->|Hj];
    intros H; [reflexivity| | |exact (numbered_inj _ _ _ H)];
    unfold numbered in H; apply app_inv_head in H; discriminate.
Qed.

Section Directory.

Context (D : gmap str File) (stem : str).

(** No more distinct names are taken than the directory has entries. *)
Lemma taken_bound (l : list N) :
  NoDup l -> (forall j, j ∈ l -> is_Some (D !! nth_name stem j)) ->
  (length l <= size D)%nat.
Proof.
  intros Hnd Hin.
  assert (NoDup (nth_name stem <$> l)) as Hnd'.
  { apply NoDup_fmap_2; [|exact Hnd]. intros i j. apply nth_name_inj. }
  rewrite <- (length_fmap (nth_name stem) l), <- (size_list_to_set (C:=gset str) _ Hnd').
  rewrite <- (size_dom D). apply subseteq_size.
  intros n Hn. apply elem_of_list_to_set, list_elem_of_fmap in Hn as (j & -> & Hj).
  apply elem_of_dom, Hin, Hj.
Qed.

Lemma below_spec k j : j ∈ below k <-> j < N.of_nat k.
Proof.
  unfold below. rewrite list_elem_of_fmap. split.
  - intros (x & -> & Hx). apply elem_of_seq in Hx. lia.
  - intros H. exists (N.to_nat j). split; [lia|]. apply elem_of_seq. lia.
Qed.

Lemma below_NoDup k : NoDup (below k).
Proof. apply NoDup_fmap_2; [intros x y; lia|apply NoDup_seq]. Qed.

Lemma all_taken_bound (k : N) :
  (forall j, j < k -> is_Some (D !! nth_name stem j)) -> (N.to_nat k <= size D)%nat.
Proof.
  intros H. pose proof (taken_bound (below (N.to_nat k)) (below_NoDup _)) as Hb.
  unfold below in Hb at 2. rewrite length_fmap, length_seq in Hb. apply Hb.
  intros j Hj. apply below_spec in Hj. apply H. lia.
Qed.

(** Some name is free, and the first free one is found by counting up. *)
Lemma first_free_exists :
  exists k, (forall j, j < k -> is_Some (D !! nth_name stem j)) /\
            D !! nth_name stem k = None.
Proof.
  assert (forall m n, (m + n = S (size D))%nat ->
            (forall j, j < N.of_nat n -> is_Some (D !! nth_name stem j)) ->
            exists k, (forall j, j < k -> is_Some (D !! nth_name stem j)) /\
                      D !! nth_name stem k = None) as Hsearch.
  { induction m as [|m IH]; intros n Hmn Hn.
    - apply all_taken_bound in Hn. lia.
    - destruct (D !! nth_name stem (N.of_nat n)) as [f|] eqn:Hk.
      + apply (IH (S n)); [lia|]. intros j Hj.
        destruct (decide (j = N.of_nat n)) as [->|Hne]; [rewrite Hk; eauto|].
        apply Hn. lia.
      + exists (N.of_nat n). auto. }
  apply (Hsearch (S (size D)) 0%nat); [lia|]. intros j Hj. lia.
Qed.

End Directory.

Section Loop.

Context (E : Env) (d : str) (stem : str) (w : World).

Lemma path_exists_run name :
  path_exists E d name w =
  match stat_error E (path_join d name) w with
  | Some msg => (Raised (Exception msg), w)
  | None => (Ok (bool_decide (is_Some (user_dir d w !! name))), w)
  end.
Proof.
  unfold path_exists, fail_if, gets, mbind, M_bind.
  destruct (stat_error E (path_join d name) w); reflexivity.
Qed.

Lemma while_S fuel dest i :
  while_dest_exists E (S fuel) d stem dest i =
  (e ← path_exists E d dest;
   if e : bool then while_dest_exists E fuel d stem (numbered stem i) (i + 1)
   else mret dest).
Proof. reflexivity. Qed.

Lemma search_error_unfold n i :
  search_error E d stem w n i =
  match stat_error E (path_join d (nth_name stem i)) w with
  | Some msg => Some msg
  | None =>
      match n with
      | O => None
      | S n' => search_error E d stem w n' (i + 1)
      end
  end.
Proof. destruct n; reflexivity. Qed.

Lemma nth_name_succ i : numbered stem (i + 1) = nth_name stem (i + 1).
Proof. unfold nth_name. rewrite (proj2 (N.eqb_neq (i + 1) 0)) by lia. reflexivity. Qed.

(** The loop stops at the first of the names on which the test raises, or
    at the first free name. *)
Lemma while_run (n : nat) : forall (fuel : nat) (i : N),
  (n < fuel)%nat ->
  (forall j, i <= j < i + N.of_nat n -> is_Some (user_dir d w !! nth_name stem j)) ->
  user_dir d w !! nth_name stem (i + N.of_nat n) = None ->
  while_dest_exists E fuel d stem (nth_name stem i) (i + 1) w
  = (match search_error E d stem w n i with
     | Some msg => Raised (Exception msg)
     | None => Ok (nth_name stem (i + N.of_nat n))
     end, w).
Proof.
  induction n as [|n IH]; intros [|fuel] i Hf Hex Hfree; try lia.
  - rewrite N.add_0_r in *. rewrite while_S, search_error_unfold.
    unfold mbind, M_bind. rewrite path_exists_run.
    destruct (stat_error E (path_join d (nth_name stem i)) w); [reflexivity|].
    rewrite bool_decide_eq_false_2 by (rewrite Hfree; apply is_Some_None). reflexivity.
  - rewrite while_S, search_error_unfold.
    unfold mbind, M_bind. rewrite path_exists_run.
    destruct (stat_error E (path_join d (nth_name stem i)) w); [reflexivity|].
    rewrite bool_decide_eq_true_2 by (apply Hex; lia).
    replace (i + N.of_nat (S n)) with ((i + 1) + N.of_nat n) in * by lia.
    rewrite nth_name_succ.
    apply IH; [lia| |exact Hfree]. intros j Hj. apply Hex. lia.
Qed.

End Loop.

(** The search for the destination of a candidate always ends: on the
    error of the first name on which the test raises, or else on the first
    free name. *)
Lemma resolve_dest_run E d cand w k :
  let stem := safe_filename (Sys.stem cand) default_max_length in
  (forall j, j < k -> is_Some (user_dir d w !! nth_name stem j)) ->
  user_dir d w !! nth_name stem k = None ->
  resolve_dest E d cand w
  = (match search_error E d stem w (N.to_nat k) 0 with
     | Some msg => Raised (Exception msg)
     | None => Ok (nth_name stem k)
     end, w).
Proof.
  intros stem Hex Hfree. unfold resolve_dest. fold stem.
  change (stem ++ lit ".mp3") with (nth_name stem 0).
  unfold mbind at 1, M_bind at 1. rewrite path_exists_run.
  rewrite (search_error_unfold E d stem w (N.to_nat k) 0).
  destruct (stat_error E (path_join d (nth_name stem 0)) w) eqn:Hs; [reflexivity|].
  destruct (N.eqb_spec k 0) as [->|Hk].
  - rewrite bool_decide_eq_false_2 by (rewrite Hfree; apply is_Some_None). reflexivity.
  - rewrite bool_decide_eq_true_2 by (apply (Hex 0); lia).
    unfold mbind, M_bind, gets. cbv beta iota.
    pose proof (while_run E d stem w (N.to_nat k) (2 + size (user_dir d w)) 0) as Hrun.
    rewrite (search_error_unfold E d stem w (N.to_nat k) 0), Hs in Hrun.
    replace (0 + N.of_nat (N.to_nat k)) with k in Hrun by lia.
    destruct (N.to_nat k) as [|n] eqn:Hn; [lia|].
    apply Hrun.
    + pose proof (all_taken_bound _ _ _ Hex). lia.
    + intros j Hj. apply Hex. lia.
    + exact Hfree.
Qed.

(** No error: the first free name. *)
Lemma resolve_dest_free E d cand w k :
  let stem := safe_filename (Sys.stem cand) default_max_length in
  (forall j, j < k -> is_Some (user_dir d w !! nth_name stem j)) ->
  user_dir d w !! nth_name stem k = None ->
  (forall j, j <= k -> stat_error E (path_join d (nth_name stem j)) w = None) ->
  resolve_dest E d cand w = (Ok (nth_name stem k), w).
Proof.
  intros stem Hex Hfree Hstat. rewrite (resolve_dest_run E d cand w k Hex Hfree). fold stem.
  assert (forall n i, i + N.of_nat n <= k -> search_error E d stem w n i = None) as Hnone.
  { induction n as [|n IH]; intros i Hi; rewrite search_error_unfold, Hstat by lia;
      [reflexivity|]. apply IH. lia. }
  rewrite Hnone by lia. reflexivity.
Qed.

Lemma search_error_first E d stem w n : forall i j msg,
  i <= j <= i + N.of_nat n ->
  (forall x, i <= x < j -> stat_error E (path_join d (nth_name stem x)) w = None) ->
  stat_error E (path_join d (nth_name stem j)) w = Some msg ->
  search_error E d stem w n i = Some msg.
Proof.
  induction n as [|n IH]; intros i j msg Hj Hbefore Hat; rewrite search_error_unfold.
  - replace i with j by lia. rewrite Hat. reflexivity.
  - destruct (decide (i = j)) as [->|Hne]; [rewrite Hat; reflexivity|].
    rewrite Hbefore by lia. apply (IH (i + 1) j msg); [lia| |exact Hat].
    intros x Hx. apply Hbefore. lia.
Qed.

(** An error: the one of the first name on which the test raises. *)
Lemma resolve_dest_raises E d cand w k j msg :
  let stem := safe_filename (Sys.stem cand) default_max_length in
  (forall i, i < k -> is_Some (user_dir d w !! nth_name stem i)) ->
  user_dir d w !! nth_name stem k = None ->
  j <= k ->
  (forall i, i < j -> stat_error E (path_join d (nth_name stem i)) w = None) ->
  stat_error E (path_join d (nth_name stem j)) w = Some msg ->
  resolve_dest E d cand w = (Raised (Exception msg), w).
Proof.
  intros stem Hex Hfree Hj Hbefore Hat. rewrite (resolve_dest_run E d cand w k Hex Hfree).
  fold stem. rewrite (search_error_first E d stem w (N.to_nat k) 0 j msg); [reflexivity|lia| |exact Hat].
  intros x Hx. apply Hbefore. lia.
Qed.

(** The search returns a free name or raises, and changes nothing. *)
Lemma resolve_dest_total E d cand w :
  (exists msg, resolve_dest E d cand w = (Raised (Exception msg), w)) \/
  (exists k, resolve_dest E d cand w
             = (Ok (nth_name (safe_filename (Sys.stem cand) default_max_length) k), w) /\
     user_dir d w !! nth_name (safe_filename (Sys.stem cand) default_max_length) k = None).
Proof.
  destruct (first_free_exists (user_dir d w)
              (safe_filename (Sys.stem cand) default_max_length)) as (k & Hex & Hfree).
  rewrite (resolve_dest_run E d cand w k Hex Hfree).
  destruct (search_error E d _ w (N.to_nat k) 0) as [msg|]; [left|right]; eauto.
Qed.

End NamingFacts.

Import NamingFacts.

Module MonadFacts.

Lemma bind_ok {A B} (m : M A) (f : A -> M B) w a w' :
  m w = (Ok a, w') -> (m ≫= f) w = f a w'.
Proof. unfold mbind, M_bind. intros ->. reflexivity. Qed.

Lemma bind_raised {A B} (m : M A) (f : A -> M B) w e w' :
  m w = (Raised e, w') -> (m ≫= f) w = (Raised e, w').
Proof. unfold mbind, M_bind. intros ->. reflexivity. Qed.

Lemma try_ok {A} (m : M A) h w a w' :
  m w = (Ok a, w') -> try_except m h w = (Ok a, w').
Proof. unfold try_except. intros ->. reflexivity. Qed.

Lemma try_caught {A} (m : M A) h w msg w' :
  m w = (Raised (Exception msg), w') -> try_except m h w = h msg w'.
Proof. unfold try_except. intros ->. reflexivity. Qed.

End MonadFacts.

Module FrameFacts.

Lemma dirs_kept_same w w' : dirs w' = dirs w -> dirs_kept w w'.
Proof. intros Hd d n f H. unfold user_dir in *. rewrite Hd. exact H. Qed.

Lemma logged_same P w w' : log w' = log w -> logged P w w'.
Proof. intros Hl. exists []. split; [rewrite Hl; symmetry; apply app_nil_r|constructor]. Qed.

Lemma dirs_kept_refl w : dirs_kept w w.
Proof. apply dirs_kept_same. reflexivity. Qed.

Lemma logged_refl P w : logged P w w.
Proof. apply logged_same. reflexivity. Qed.

Lemma frame_refl t P w : frame t P w w.
Proof. split; [|split]; [intros t' _; reflexivity|apply dirs_kept_refl|apply logged_refl]. Qed.

Lemma logged_trans P w1 w2 w3 : logged P w1 w2 -> logged P w2 w3 -> logged P w1 w3.
Proof.
  intros (n1 & H1 & F1) (n2 & H2 & F2). exists (n1 ++ n2).
  split; [rewrite H2, H1, app_assoc; reflexivity|apply Forall_app; auto].
Qed.

Lemma frame_trans t P w1 w2 w3 : frame t P w1 w2 -> frame t P w2 w3 -> frame t P w1 w3.
Proof.
  intros (T1 & D1 & L1) (T2 & D2 & L2). split; [|split].
  - intros t' Ht. rewrite (T2 t' Ht). apply T1, Ht.
  - intros d n f H. apply D2, D1, H.
  - eapply logged_trans; eauto.
Qed.

Lemma frame_log t (P : Event -> Prop) e w : P e -> frame t P w (log_event e w).
Proof.
  intros He. split; [|split].
  - intros t' _. reflexivity.
  - apply dirs_kept_same. reflexivity.
  - exists [e]. split; [reflexivity|repeat constructor; exact He].
Qed.

Lemma frame_set_tmp t P D w : frame t P w (set_tmp t D w).
Proof.
  split; [|split].
  - intros t' Ht. unfold set_tmp. cbn. apply lookup_insert_ne. congruence.
  - apply dirs_kept_same. reflexivity.
  - apply logged_same. reflexivity.
Qed.

Lemma user_dir_set_dir d D w d' :
  user_dir d' (set_dir d D w) = if decide (d = d') then D else user_dir d' w.
Proof.
  unfold user_dir, set_dir. cbn. rewrite lookup_insert. destruct (decide (d = d')); reflexivity.
Qed.

Lemma tmp_dir_set_tmp t D w : tmp_dir t (set_tmp t D w) = D.
Proof. unfold tmp_dir, set_tmp. cbn. rewrite lookup_insert_eq. reflexivity. Qed.

(** Writing a name that is free keeps every file. *)
Lemma frame_set_dir_insert t P d dest f w :
  user_dir d w !! dest = None -> frame t P w (set_dir d (<[dest := f]> (user_dir d w)) w).
Proof.
  intros Hfree. split; [|split].
  - intros t' _. reflexivity.
  - intros d' n f' H. rewrite user_dir_set_dir. destruct (decide (d = d')) as [<-|]; [|exact H].
    rewrite lookup_insert_ne; [exact H|]. intros <-. congruence.
  - apply logged_same. reflexivity.
Qed.

Lemma frame_mkdir t P d w : frame t P w (set_dir d (user_dir d w) w).
Proof.
  split; [|split].
  - intros t' _. reflexivity.
  - intros d' n f' H. rewrite user_dir_set_dir. destruct (decide (d = d')) as [<-|]; exact H.
  - apply logged_same. reflexivity.
Qed.

End FrameFacts.

Import MonadFacts FrameFacts.

Module ValidatorFacts.

Section WithEnv.

Context (E : Env).

Lemma ffprobe_run path w :
  ffprobe_recognizes_mp3 E path w = (Ok (primary_accepts E path w), after_primary E path w).
Proof.
  unfold ffprobe_recognizes_mp3, primary_accepts, after_primary, shutil_which,
    subprocess_run, try_except, emit, modify, gets, raise, mbind, M_bind, mret, M_ret.
  cbv beta iota.
  destruct (which E (lit "ffprobe") w); [|reflexivity]. cbn [negb andb].
  destruct (proc E (ffprobe_argv path) w) as [msg|seconds out rc]; [reflexivity|].
  destruct (15 <? seconds); reflexivity.
Qed.

Lemma validate_run path w :
  validate E path w =
  if primary_accepts E path w then (Ok true, after_primary E path w)
  else (Ok (fallback_accepts E path (after_primary E path w)),
        log_event (Spawn (ffmpeg_argv path) 20) (after_primary E path w)).
Proof.
  unfold validate. rewrite (bind_ok _ _ _ _ _ (ffprobe_run path w)).
  destruct (primary_accepts E path w); [reflexivity|]. cbn [negb].
  unfold fallback_accepts, subprocess_run, try_except, emit, modify, gets, raise,
    mbind, M_bind, mret, M_ret.
  cbv beta iota.
  destruct (proc E (ffmpeg_argv path) (after_primary E path w)) as [msg|seconds out rc];
    [reflexivity|].
  destruct (20 <? seconds); reflexivity.
Qed.

Lemma validate_verdict path w :
  log (validate E path w).2 = log w ++ probe_events E path w ++ decode_events E path w /\
  (validate E path w).1 = Ok (verdict E path w).
Proof.
  rewrite validate_run.
  unfold verdict, probe_events, decode_events, after_primary.
  destruct (primary_accepts E path w) eqn:Hp; cbn [fst snd orb].
  - destruct (which E (lit "ffprobe") w); cbn [log log_event];
      rewrite ?app_nil_r; auto.
  - destruct (which E (lit "ffprobe") w); cbn [log log_event];
      rewrite <- ?app_assoc; auto.
Qed.

Lemma validate_frame t (P : Event -> Prop) path w :
  (forall argv timeout, P (Spawn argv timeout)) ->
  exists ok w', validate E path w = (Ok ok, w') /\ frame t P w w'.
Proof.
  intros HP. rewrite validate_run.
  assert (frame t P w (after_primary E path w)) as H1.
  { unfold after_primary. destruct (which E _ w); [apply frame_log, HP|apply frame_refl]. }
  destruct (primary_accepts E path w); eexists _, _; (split; [reflexivity|]); [exact H1|].
  eapply frame_trans; [exact H1|apply frame_log, HP].
Qed.

End WithEnv.

End ValidatorFacts.

Import ValidatorFacts.

Module PipelineFacts.

Section WithEnv.

Context (E : Env) (P : Event -> Prop).
Context (P_other : forall e, (forall opts url, e <> Ydl opts url) -> P e).

Lemma P_spawn argv timeout : P (Spawn argv timeout).
Proof. apply P_other. discriminate. Qed.

Lemma P_st k msg : P (St k msg).
Proof. apply P_other. discriminate. Qed.

Lemma discard_run t cand w :
  exists w', discard E t cand w = (Ok tt, w') /\ frame t P w w'.
Proof.
  unfold discard, emit, modify, unlink, fail_if, try_except, gets, raise,
    mbind, M_bind, mret, M_ret.
  cbv beta iota.
  destruct (unlink_error E t cand _);
    [|destruct (tmp_dir t _ !! cand)]; eexists; (split; [reflexivity|]).
  - apply frame_log, P_st.
  - eapply frame_trans; [apply frame_log, P_st|apply frame_set_tmp].
  - apply frame_log, P_st.
Qed.

Lemma move_run t cand d dest acc w :
  user_dir d w !! dest = None ->
  ((is_Some (replace_error E t cand d dest w) \/ tmp_dir t w !! cand = None) /\
   exists msg, move E t cand d dest acc w = (Raised (Exception msg), w)) \/
  (exists f w', tmp_dir t w !! cand = Some f /\ replace_error E t cand d dest w = None /\
     move E t cand d dest acc w = (Ok (acc ++ [dest]), w') /\ frame t P w w' /\
     f_data <$> (user_dir d w' !! dest) = Some (f_data f) /\
     tmp_dir t w' !! cand = None).
Proof.
  intros Hfree.
  unfold move, os_replace, os_chmod, fail_if, try_except, modify, gets, raise,
    mbind, M_bind, mret, M_ret.
  cbv beta iota.
  destruct (replace_error E t cand d dest w) as [msg|] eqn:Hre; [left; eauto|].
  destruct (tmp_dir t w !! cand) as [f|] eqn:Hc; [|left; eauto].
  right. exists f.
  set (w1 := set_tmp t (delete cand (tmp_dir t w)) w).
  set (w2 := set_dir d (<[dest := f]> (user_dir d w)) w1).
  assert (frame t P w w2) as F2.
  { eapply frame_trans; [apply frame_set_tmp|].
    apply (frame_set_dir_insert t P d dest f w1). exact Hfree. }
  assert (user_dir d w2 !! dest = Some f) as Hd2.
  { unfold w2. rewrite user_dir_set_dir, decide_True by reflexivity. apply lookup_insert_eq. }
  assert (tmp_dir t w2 !! cand = None) as Ht2.
  { change (tmp_dir t w2) with (tmp_dir t w1). unfold w1.
    rewrite tmp_dir_set_tmp. apply lookup_delete_eq. }
  destruct (chmod_error E d dest w2) as [msg|]; cbv beta iota.
  - exists w2. do 3 (split; [reflexivity|]). rewrite Hd2. auto.
  - rewrite Hd2. eexists. split; [reflexivity|]. split; [reflexivity|]. split; [reflexivity|].
    split; [|split].
    + destruct F2 as (T2 & D2 & L2). split; [|split].
      * exact T2.
      * intros d' n f' H. rewrite user_dir_set_dir.
        destruct (decide (d = d')) as [<-|]; [|apply D2, H].
        rewrite lookup_insert_ne; [apply D2, H|]. intros <-. congruence.
      * exact L2.
    + rewrite user_dir_set_dir, decide_True by reflexivity.
      rewrite lookup_insert_eq. reflexivity.
    + exact Ht2.
Qed.

Lemma place_unfold t d cand acc :
  place E t d cand acc =
  try_except (dest ← resolve_dest E d cand; move E t cand d dest acc)
    (fun e : str =>
       emit (St StError (lit "Failed to move validated file into place: " ++ e));;
       mret acc).
Proof. reflexivity. Qed.

Lemma place_run t d cand acc w :
  exists acc' w', place E t d cand acc w = (Ok acc', w') /\ frame t P w w' /\
    (acc' = acc \/
     exists dest, acc' = acc ++ [dest] /\ user_dir d w !! dest = None /\
                  is_Some (user_dir d w' !! dest)).
Proof.
  rewrite place_unfold.
  destruct (resolve_dest_total E d cand w) as [(msg & Hres)|(k & Hres & Hfree)].
  { rewrite (try_caught _ _ w msg w) by (rewrite (bind_raised _ _ _ _ _ Hres); reflexivity).
    eexists _, _. split; [reflexivity|]. split; [apply frame_log, P_st|left; reflexivity]. }
  set (dest := nth_name _ k) in *.
  destruct (move_run t cand d dest acc w Hfree)
    as [(_ & msg & Hm)|(f & w' & _ & _ & Hm & Hf & Hd & _)].
  - rewrite (try_caught _ _ w msg w) by (rewrite (bind_ok _ _ _ _ _ Hres); exact Hm).
    eexists _, _. split; [reflexivity|]. split; [apply frame_log, P_st|left; reflexivity].
  - rewrite (try_ok _ _ w (acc ++ [dest]) w') by (rewrite (bind_ok _ _ _ _ _ Hres); exact Hm).
    eexists _, _. split; [reflexivity|]. split; [exact Hf|]. right. exists dest.
    split; [reflexivity|]. split; [exact Hfree|].
    destruct (user_dir d w' !! dest); [eauto|discriminate].
Qed.


(** As [place_success], with the files that are kept. *)
Lemma place_moved t d cand acc w dest f :
  resolve_dest E d cand w = (Ok dest, w) ->
  user_dir d w !! dest = None ->
  replace_error E t cand d dest w = None ->
  tmp_dir t w !! cand = Some f ->
  exists w', place E t d cand acc w = (Ok (acc ++ [dest]), w') /\
             f_data <$> (user_dir d w' !! dest) = Some (f_data f) /\
             tmp_dir t w' !! cand = None /\ dirs_kept w w'.
Proof.
  intros Hres Hfree Hre Hc. rewrite place_unfold.
  destruct (move_run t cand d dest acc w Hfree)
    as [([[? Hs]|Hn] & _)|(f' & w' & Hc' & _ & Hm & (_ & Hk & _) & Hd & Ht)].
  - congruence.
  - congruence.
  - exists w'. rewrite Hc in Hc'. injection Hc' as <-.
    rewrite (try_ok _ _ w (acc ++ [dest]) w') by (rewrite (bind_ok _ _ _ _ _ Hres); exact Hm).
    auto.
Qed.

(** When the search for the name raises, the error is reported and
    nothing is placed. *)
Lemma place_search_fails t d cand acc w msg :
  resolve_dest E d cand w = (Raised (Exception msg), w) ->
  place E t d cand acc w = (Ok acc, log_event (place_error msg) w).
Proof.
  intros Hres. rewrite place_unfold.
  rewrite (try_caught _ _ w msg w) by (rewrite (bind_raised _ _ _ _ _ Hres); reflexivity).
  reflexivity.
Qed.

Lemma for_candidates_cons t d cand rest acc w :
  exists acc' w',
    for_candidates E t d (cand :: rest) acc w = for_candidates E t d rest acc' w' /\
    frame t P w w' /\
    (acc' = acc \/
     exists dest, acc' = acc ++ [dest] /\ user_dir d w !! dest = None /\
                  is_Some (user_dir d w' !! dest)).
Proof.
  cbn [for_candidates].
  destruct (validate_frame E t P (path_join (tmp_path E t) cand) w P_spawn)
    as (ok & w1 & Hv & F1).
  rewrite (bind_ok _ _ _ _ _ Hv). destruct ok; cbn [negb].
  - destruct (place_run t d cand acc w1) as (acc' & w2 & Hp & F2 & Hacc).
    rewrite (bind_ok _ _ _ _ _ Hp). exists acc', w2. split; [reflexivity|].
    split; [eapply frame_trans; eauto|].
    destruct Hacc as [->|(dest & -> & Hfree & Hthere)]; [left; reflexivity|].
    right. exists dest. split; [reflexivity|]. split; [|exact Hthere].
    destruct F1 as (_ & D1 & _). destruct (user_dir d w !! dest) as [f|] eqn:Hw; [|reflexivity].
    rewrite (D1 _ _ _ Hw) in Hfree. discriminate.
  - destruct (discard_run t cand w1) as (w2 & Hd & F2).
    rewrite (bind_ok _ _ _ _ _ Hd). exists acc, w2. split; [reflexivity|].
    split; [eapply frame_trans; eauto|left; reflexivity].
Qed.

Lemma for_candidates_run t d cands : forall acc w,
  exists newly w',
    for_candidates E t d cands acc w = (Ok (acc ++ newly), w') /\
    frame t P w w' /\ NoDup newly /\
    forall n, n ∈ newly -> user_dir d w !! n = None /\ is_Some (user_dir d w' !! n).
Proof.
  induction cands as [|cand rest IH]; intros acc w.
  - exists [], w. cbn. rewrite app_nil_r.
    split; [reflexivity|]. split; [apply frame_refl|]. split; [constructor|].
    intros n Hn. inversion Hn.
  - destruct (for_candidates_cons t d cand rest acc w) as (acc' & w1 & -> & F1 & Hacc).
    destruct (IH acc' w1) as (newly & w' & -> & F2 & Hnd & Hnew).
    assert (forall n, user_dir d w1 !! n = None -> user_dir d w !! n = None) as Hback.
    { intros n Hn. destruct F1 as (_ & D1 & _).
      destruct (user_dir d w !! n) as [f|] eqn:Hw; [|reflexivity].
      rewrite (D1 _ _ _ Hw) in Hn. discriminate. }
    destruct Hacc as [->|(dest & -> & Hfree & Hthere)].
    + exists newly, w'. split; [reflexivity|]. split; [eapply frame_trans; eauto|].
      split; [exact Hnd|]. intros n Hn. destruct (Hnew n Hn). auto.
    + exists (dest :: newly), w'. split; [rewrite <- app_assoc; reflexivity|].
      split; [eapply frame_trans; eauto|]. split.
      * constructor; [|exact Hnd]. intros Hin. destruct (Hnew dest Hin) as [Hn _].
        rewrite Hn in Hthere. destruct Hthere as [? ?]. discriminate.
      * intros n Hn. apply elem_of_cons in Hn as [->|Hn].
        -- split; [exact Hfree|]. destruct Hthere as [f Hf].
           destruct F2 as (_ & D2 & _). rewrite (D2 _ _ _ Hf). eauto.
        -- destruct (Hnew n Hn). auto.
Qed.

End WithEnv.

End PipelineFacts.

Import PipelineFacts.

Module RunFacts.

Section WithEnv.

Context (E : Env) (P : Event -> Prop).
Context (P_other : forall e, (forall opts url, e <> Ydl opts url) -> P e).

Lemma ydl_download_run opts url w :
  ydl_download E opts url w =
  (match (ydl E opts url w).2 with
   | Some msg => Raised (Exception msg)
   | None => Ok tt
   end,
   write_files (outtmpl opts).1 (ydl E opts url w).1 (log_event (Ydl opts url) w)).
Proof.
  unfold ydl_download, emit, modify, gets, raise, mbind, M_bind, mret, M_ret.
  cbv beta iota. destruct (ydl E opts url w).2; reflexivity.
Qed.

Lemma glob_mp3_run t w :
  glob_mp3 t w =
  (Ok (sorted (filter (fun n => ends_with (lit ".mp3") n = true)
                 (map fst (map_to_list (tmp_dir t w))))), w).
Proof. reflexivity. Qed.

Lemma body_run url d q t w :
  P (Ydl (ydl_opts t q) url) ->
  exists r w', body E url d q t w = (r, w') /\ frame t P w w' /\ outcome_ok d w w' r.
Proof.
  intros HP. unfold body. pose proof (ydl_download_run (ydl_opts t q) url w) as Hy.
  set (w1 := write_files _ _ _) in Hy.
  assert (frame t P w w1) as F1.
  { unfold w1. cbn. eapply frame_trans; [apply (frame_log t P _ w HP)|apply frame_set_tmp]. }
  destruct (ydl E (ydl_opts t q) url w).2 as [msg|].
  - exists (Raised (Exception msg)), w1. rewrite (bind_raised _ _ _ _ _ Hy).
    split; [reflexivity|]. split; [exact F1|exact I].
  - rewrite (bind_ok _ _ _ _ _ Hy), (bind_ok _ _ _ _ _ (glob_mp3_run t w1)).
    destruct (for_candidates_run E P P_other t d
                (sorted (filter (fun n => ends_with (lit ".mp3") n = true)
                           (map fst (map_to_list (tmp_dir t w1))))) [] w1)
      as (newly & w' & Hrun & F2 & Hnd & Hnew).
    exists (Ok newly), w'. split; [exact Hrun|]. split; [eapply frame_trans; eauto|].
    split; [exact Hnd|]. intros n Hn. destruct (Hnew n Hn) as [Hfree Hthere].
    split; [|exact Hthere]. destruct F1 as (_ & D1 & _).
    destruct (user_dir d w !! n) as [f|] eqn:Hw; [|reflexivity].
    rewrite (D1 _ _ _ Hw) in Hfree. discriminate.
Qed.

(** The block of a run, step by step. *)
Lemma block_cases url d q w :
  block E url d q w =
  match fetch_error E url d q w with
  | Some msg => (Raised (Exception msg), fetched E url d q w)
  | None =>
      for_candidates E (scratch_of w) d
        (sorted (mp3_names (tmp_dir (scratch_of w) (fetched E url d q w))))
        [] (fetched E url d q w)
  end.
Proof.
  unfold block, body.
  pose proof (ydl_download_run (ydl_opts (scratch_of w) q) url (opened d w)) as Hy.
  fold (fetch_error E url d q w) in Hy.
  change (write_files _ _ _) with (fetched E url d q w) in Hy.
  destruct (fetch_error E url d q w) as [msg|].
  - rewrite (bind_raised _ _ _ _ _ Hy). reflexivity.
  - rewrite (bind_ok _ _ _ _ _ Hy), (bind_ok _ _ _ _ _ (glob_mp3_run _ _)). reflexivity.
Qed.

Lemma download_and_validate_unfold url d q :
  download_and_validate E url d q =
  (mkdir E d;; with_TemporaryDirectory E (body E url d q)).
Proof. reflexivity. Qed.

(** A block that ends is left through the exit. *)
Lemma with_TemporaryDirectory_leave {A} (b : positive -> M A) w :
  (b (scratch_of w) (set_tmp (scratch_of w) ∅ w)).1 <> Diverged ->
  with_TemporaryDirectory E b w = leave E (scratch_of w) (b (scratch_of w) (set_tmp (scratch_of w) ∅ w)).
Proof.
  unfold with_TemporaryDirectory, leave, scratch_of. cbv zeta.
  destruct (b _ _) as [[a|e|] w']; cbn [fst snd]; [reflexivity|reflexivity|congruence].
Qed.

Lemma leave_facts {A} t (rw : Result A * World) :
  dirs (leave E t rw).2 = dirs rw.2 /\ log (leave E t rw).2 = log rw.2 /\
  tmp_framed t rw.2 (leave E t rw).2 /\
  match rmtree_error E t rw.2 with
  | None => leave E t rw = (rw.1, closed t rw.2)
  | Some (msg, _) =>
      (leave E t rw).1 = Raised (Exception msg) /\ is_Some (tmpdirs (leave E t rw).2 !! t)
  end.
Proof.
  unfold leave, cleanup. destruct (rmtree_error E t rw.2) as [[msg remains]|]; cbn.
  - split; [reflexivity|]. split; [reflexivity|]. split.
    + intros t' Ht. apply lookup_insert_ne. congruence.
    + split; [reflexivity|]. rewrite lookup_insert_eq. eauto.
  - split; [reflexivity|]. split; [reflexivity|]. split; [|reflexivity].
    intros t' Ht. apply lookup_delete_ne. congruence.
Qed.

Lemma scratch_fresh w : tmpdirs w !! scratch_of w = None.
Proof. unfold scratch_of. apply not_elem_of_dom, is_fresh. Qed.

Lemma block_run url d q w :
  P (Ydl (ydl_opts (scratch_of w) q) url) ->
  exists r w', block E url d q w = (r, w') /\
    frame (scratch_of w) P (opened d w) w' /\ outcome_ok d (opened d w) w' r.
Proof. apply body_run. Qed.

(** A run, step by step. *)
Lemma run_cases url d q w :
  download_and_validate E url d q w =
  match mkdir_error E d w with
  | Some msg => (Raised (Exception msg), w)
  | None => leave E (scratch_of w) (block E url d q w)
  end.
Proof.
  rewrite download_and_validate_unfold.
  unfold mkdir, fail_if, modify. unfold mbind at 1 2, M_bind at 1 2. cbv beta iota.
  destruct (mkdir_error E d w) as [msg|]; [reflexivity|]. cbv beta iota.
  rewrite with_TemporaryDirectory_leave; [reflexivity|].
  change (body E url d q _ _) with (block E url d q w). rewrite block_cases.
  destruct (fetch_error E url d q w); [discriminate|].
  destruct (for_candidates_run E P P_other (scratch_of w) d
              (sorted (mp3_names (tmp_dir (scratch_of w) (fetched E url d q w)))) []
              (fetched E url d q w)) as (newly & w' & -> & _). discriminate.
Qed.

Lemma frame_opened d w : frame (scratch_of w) P w (opened d w).
Proof.
  unfold opened. eapply frame_trans; [apply frame_mkdir|apply frame_set_tmp].
Qed.

Lemma user_dir_opened d w d' : user_dir d' (opened d w) = user_dir d' w.
Proof.
  unfold opened. change (user_dir d' (set_tmp ?t ?D ?w0)) with (user_dir d' w0).
  rewrite user_dir_set_dir. destruct (decide (d = d')) as [<-|]; reflexivity.
Qed.

Lemma download_and_validate_run url d q w :
  (forall t, P (Ydl (ydl_opts t q) url)) ->
  exists r w', download_and_validate E url d q w = (r, w') /\
    tmp_kept w w' /\ dirs_kept w w' /\ logged P w w' /\ outcome_ok d w w' r /\
    ((forall t w0, rmtree_error E t w0 = None) -> tmpdirs w' = tmpdirs w).
Proof.
  intros HP. rewrite run_cases.
  destruct (mkdir_error E d w) as [msg|].
  - exists (Raised (Exception msg)), w. split; [reflexivity|].
    split; [intros t D H; exact H|]. split; [apply dirs_kept_refl|].
    split; [apply logged_refl|]. split; [exact I|reflexivity].
  - destruct (block_run url d q w (HP _)) as (r & w2 & Hb & F & Hout). rewrite Hb.
    destruct (leave_facts (scratch_of w) (r, w2)) as (Hd & Hl & HT & Hrm).
    cbn [fst snd] in *.
    destruct (frame_trans _ _ _ _ _ (frame_opened d w) F) as (T2 & D2 & L2).
    eexists _, _. split; [apply surjective_pairing|].
    split; [|split; [|split; [|split]]].
    + intros t D H.
      assert (t <> scratch_of w) as Hne by (intros ->; rewrite scratch_fresh in H; discriminate).
      rewrite (HT t Hne), (T2 t Hne). exact H.
    + intros d' n f H. unfold user_dir. rewrite Hd. apply (D2 d' n f H).
    + destruct L2 as (new & L2 & Hnew). exists new. rewrite Hl. auto.
    + destruct (rmtree_error E (scratch_of w) w2) as [[msg remains]|].
      * destruct Hrm as [-> _]. exact I.
      * rewrite Hrm. cbn [fst snd].
        destruct r as [accepted|[msg|code]|]; try exact Hout.
        destruct Hout as [Hnd Hnew]. split; [exact Hnd|]. intros n Hn.
        destruct (Hnew n Hn) as [Hfree Hthere]. rewrite user_dir_opened in Hfree. auto.
    + intros Hno. rewrite (Hno (scratch_of w) w2) in Hrm. rewrite Hrm. cbn [snd closed tmpdirs].
      apply map_eq. intros t. destruct (decide (t = scratch_of w)) as [->|Hne].
      * rewrite lookup_delete_eq, scratch_fresh. reflexivity.
      * rewrite lookup_delete_ne by congruence. apply (T2 t Hne).
Qed.

End WithEnv.

End RunFacts.

Import RunFacts.

Module FrontEndFacts.

Section WithEnv.

Context (E : Env) (P : Event -> Prop).
Context (P_other : forall e, (forall opts url, e <> Ydl opts url) -> P e).

Lemma keeps_ret {A} (a : A) : keeps P (mret a).
Proof. intros w. apply logged_refl. Qed.

Lemma keeps_gets {A} (f : World -> A) : keeps P (gets f).
Proof. intros w. apply logged_refl. Qed.

Lemma keeps_raise {A} e : keeps P (raise (A:=A) e).
Proof. intros w. apply logged_refl. Qed.

Lemma keeps_emit e : P e -> keeps P (emit e).
Proof. intros He w. apply (frame_log 1%positive P e w He). Qed.

Lemma keeps_bind {A B} (m : M A) (f : A -> M B) :
  keeps P m -> (forall a, keeps P (f a)) -> keeps P (m ≫= f).
Proof.
  intros Hm Hf w. specialize (Hm w). unfold mbind, M_bind.
  destruct (m w) as [[a|e|] w1]; cbn in Hm; [|exact Hm|exact Hm].
  eapply logged_trans; [exact Hm|apply Hf].
Qed.

Lemma keeps_try {A} (m : M A) h :
  keeps P m -> (forall e, keeps P (h e)) -> keeps P (try_except m h).
Proof.
  intros Hm Hh w. specialize (Hm w). unfold try_except.
  destruct (m w) as [[a|[msg|code]|] w1]; cbn in Hm; try exact Hm.
  eapply logged_trans; [exact Hm|apply Hh].
Qed.

Lemma keeps_fail_if o : keeps P (fail_if o).
Proof. intros w. unfold fail_if. destruct (o w); apply logged_refl. Qed.

Lemma keeps_mkdir d : keeps P (mkdir E d).
Proof.
  intros w. unfold mkdir, fail_if, modify, mbind, M_bind. cbv beta iota.
  destruct (mkdir_error E d w); apply logged_same; reflexivity.
Qed.

Lemma log_write_files wh files w : log (write_files wh files w) = log w.
Proof. destruct wh; reflexivity. Qed.

Lemma keeps_ydl_download opts url : P (Ydl opts url) -> keeps P (ydl_download E opts url).
Proof.
  intros HP w. rewrite ydl_download_run. cbn [snd].
  exists [Ydl opts url]. split; [apply log_write_files|repeat constructor; exact HP].
Qed.


Ltac keeps_with tac :=
  repeat first
    [ tac | apply keeps_ret | apply keeps_gets | apply keeps_raise | apply keeps_mkdir
    | apply keeps_fail_if
    | apply keeps_emit; apply P_other; discriminate
    | apply keeps_bind; [|intros ?]
    | apply keeps_try; [|intros ?]
    | match goal with
      | |- keeps _ (if ?b then _ else _) => destruct b
      | |- keeps _ (match ?x with _ => _ end) => destruct x
      end ].




Lemma keeps_download_mp3 url out_dir q :
  P (Ydl (YtToMp3.ydl_opts out_dir q) url) -> keeps P (YtToMp3.download_mp3 E url out_dir q).
Proof.
  intros HP. unfold YtToMp3.download_mp3, YtToMp3.check_ffmpeg, shutil_which.
  keeps_with ltac:(apply keeps_ydl_download; exact HP).
Qed.

End WithEnv.



Lemma playlists_expanded_other e : (forall opts url, e <> Ydl opts url) -> playlists_expanded e.
Proof. destruct e; try exact (fun _ => I). intros H. destruct (H opts url eq_refl). Qed.


Lemma cli_main_keeps E args : keeps playlists_expanded (YtToMp3.main E args).
Proof.
  unfold YtToMp3.main. apply keeps_bind; [destruct (YtToMp3.ns_noplaylist args); apply keeps_ret|].
  intros _. apply keeps_bind; [apply keeps_emit; exact I|]. intros _.
  apply keeps_bind; [|intros _; apply keeps_emit; exact I].
  apply keeps_download_mp3; [exact playlists_expanded_other|reflexivity].
Qed.


End FrontEndFacts.

Import FrontEndFacts.

Module Examples.

Example sanitize_title :
  safe_filename (lit "  AC/DC:  Back   in Black?  ") default_max_length
  = lit "ACDC Back in Black".
Proof. reflexivity. Qed.

Example sanitize_tab_and_newline :
  safe_filename (lit "a" ++ [9; 10] ++ lit "b") default_max_length = lit "a b".
Proof. reflexivity. Qed.

Example sanitize_cut : safe_filename (lit "abcdef") 3 = lit "abc".
Proof. reflexivity. Qed.

Example sanitize_only_forbidden : safe_filename (lit "?*|") default_max_length = [].
Proof. reflexivity. Qed.

(** A negative bound is no length: the slice then counts from the end. *)
Example sanitize_negative_bound : safe_filename (lit "abc") (-1) = lit "ab".
Proof. reflexivity. Qed.

Example stem_plain : stem (lit "Song.mp3") = lit "Song".
Proof. reflexivity. Qed.

Example stem_two_dots : stem (lit "a.b.mp3") = lit "a.b".
Proof. reflexivity. Qed.

Example stem_hidden : stem (lit ".mp3") = lit ".mp3".
Proof. reflexivity. Qed.

Example numbered_seventeen : numbered (lit "Song") 17 = lit "Song (17).mp3".
Proof. reflexivity. Qed.

Example posix_paths :
  posix_path (lit "out/") = lit "out" /\
  posix_path (lit "//a//b/./c/") = lit "//a/b/c" /\
  posix_path (lit "///a") = lit "/a" /\
  posix_path (lit "a/../b") = lit "a/../b" /\
  posix_path [] = lit ".".
Proof. vm_compute. auto. Qed.

(** An eighth of a megabyte is a tie between two hundredths, and goes to
    the even one; three eighths go up. *)
Example sizes_in_megabytes :
  fmt_mb 0 = lit "0.00" /\ fmt_mb 131072 = lit "0.12" /\ fmt_mb 393216 = lit "0.38" /\
  fmt_mb 5000000 = lit "4.77" /\ fmt_mb 123456789 = lit "117.74".
Proof. vm_compute. auto. Qed.

Example sorted_names :
  sorted [lit "b.mp3"; lit "a?.mp3"; lit "a.mp3"] = [lit "a.mp3"; lit "a?.mp3"; lit "b.mp3"].
Proof. reflexivity. Qed.

End Examples.

Module Claims.

(** C1: for every name and every bound, the sanitized name has none of the
    nine forbidden characters and no two whitespace characters in a row,
    and it is at most as long as the bound, for every bound that is a
    length, that is, not negative. *)
Theorem safe_filename_spec (s : str) (max_length : Z) :
  has_forbidden (safe_filename s max_length) = false /\
  has_ws_run (safe_filename s max_length) = false /\
  ((0 <= max_length)%Z -> (len (safe_filename s max_length) <= max_length)%Z).
Proof.
  destruct (safe_filename_facts s max_length) as (Hc & Ht & _).
  split; [exact Hc|]. split; [exact (tidy_no_run _ Ht)|]. apply safe_filename_length.
Qed.

Lemma safe_filename_spec_witness :
  (0 <= 3)%Z /\ (len (safe_filename (lit " a/b   cd ") 3) <= 3)%Z.
Proof.
  split; [lia|]. apply (safe_filename_spec (lit " a/b   cd ") 3). lia.
Defined.

(** C2, as amended: sanitizing a sanitized name strips its trailing
    whitespace and changes nothing else, so the sanitizer is idempotent on
    a name exactly when the sanitized name does not end in whitespace;
    that is the case whenever the name is not cut. *)
Theorem safe_filename_twice (s : str) :
  let once := safe_filename s default_max_length in
  safe_filename once default_max_length = rstrip once /\
  (safe_filename once default_max_length = once <-> ends_in_space once = false) /\
  ((len (normalized s) <= default_max_length)%Z ->
   safe_filename once default_max_length = once).
Proof.
  intros once.
  assert (safe_filename once default_max_length = rstrip once) as Heq.
  { destruct (safe_filename_facts s default_max_length) as (Hc & Ht & Hh).
    apply safe_filename_tidy_input; auto.
    apply safe_filename_length. unfold default_max_length. lia. }
  split; [exact Heq|]. rewrite Heq. split.
  - split.
    + intros H. rewrite <- H. apply rstrip_last.
    + apply rstrip_id.
  - intros Hl. apply rstrip_id. subst once. rewrite safe_filename_unfold.
    rewrite Z.gtb_ltb, (proj2 (Z.ltb_ge _ _) Hl).
    apply normalized_facts.
Qed.

Lemma safe_filename_twice_witness :
  safe_filename (safe_filename (lit " a/b   cd ") default_max_length) default_max_length
  = safe_filename (lit " a/b   cd ") default_max_length.
Proof.
  apply (proj2 (proj2 (safe_filename_twice (lit " a/b   cd ")))).
  vm_compute. discriminate.
Defined.

(** C2, as stated, fails: a name cut right after a space ends in that
    space, and the second pass strips it. *)
Lemma safe_filename_not_idempotent :
  let s := repeat 97 149 ++ lit " b" in
  safe_filename (safe_filename s default_max_length) default_max_length
  <> safe_filename s default_max_length.
Proof.
  intros s H. apply (f_equal length) in H. vm_compute in H. discriminate.
Qed.


(** C3, as amended: a candidate whose plain name is taken is placed under
    the numbered name with the least counter, from 1, whose name is free,
    when the tests of the names up to that one do not raise and the move
    does not fail: such a counter always exists, the candidate leaves the
    temporary directory and is in the destination under that name, and no
    file that was there is touched.  When the test of one of these names
    raises, the candidate is not placed: the error is reported and the
    accepted list is as it was.  With Song.mp3 in place a stem Song gives
    Song (1).mp3, and with that one in place too it gives Song (2).mp3. *)
Theorem collision_counter (E : Env) (t : positive) (d cand : str)
    (acc : list str) (w : World) (f : File) :
  let stem := safe_filename (Sys.stem cand) default_max_length in
  let D := user_dir d w in
  let tests_answer k :=
    forall j, j <= k -> stat_error E (path_join d (nth_name stem j)) w = None in
  let placed_as dest :=
    exists w', place E t d cand acc w = (Ok (acc ++ [dest]), w') /\
               f_data <$> (user_dir d w' !! dest) = Some (f_data f) /\
               tmp_dir t w' !! cand = None /\ dirs_kept w w' in
  is_Some (D !! (stem ++ lit ".mp3")) ->
  tmp_dir t w !! cand = Some f ->
  (exists k, 1 <= k /\ D !! numbered stem k = None /\
             forall j, 1 <= j < k -> is_Some (D !! numbered stem j)) /\
  (forall k, 1 <= k -> (forall j, 1 <= j < k -> is_Some (D !! numbered stem j)) ->
     D !! numbered stem k = None ->
     tests_answer k -> replace_error E t cand d (numbered stem k) w = None ->
     placed_as (numbered stem k)) /\
  (forall k j msg, 1 <= k -> (forall i, 1 <= i < k -> is_Some (D !! numbered stem i)) ->
     D !! numbered stem k = None -> j <= k ->
     (forall i, i < j -> stat_error E (path_join d (nth_name stem i)) w = None) ->
     stat_error E (path_join d (nth_name stem j)) w = Some msg ->
     place E t d cand acc w = (Ok acc, log_event (place_error msg) w)) /\
  (stem = lit "Song" -> D !! lit "Song (1).mp3" = None ->
   tests_answer 1 -> replace_error E t cand d (lit "Song (1).mp3") w = None ->
   placed_as (lit "Song (1).mp3")) /\
  (stem = lit "Song" -> is_Some (D !! lit "Song (1).mp3") ->
   D !! lit "Song (2).mp3" = None ->
   tests_answer 2 -> replace_error E t cand d (lit "Song (2).mp3") w = None ->
   placed_as (lit "Song (2).mp3")).
Proof.
  intros stem D tests_answer placed_as Hplain Hc.
  assert (forall k, 1 <= k -> (forall j, 1 <= j < k -> is_Some (D !! numbered stem j)) ->
            (forall j, j < k -> is_Some (D !! nth_name stem j))) as Htaken.
  { intros k Hk Hex j Hj. unfold nth_name.
    destruct (N.eqb_spec j 0) as [->|Hj0]; [exact Hplain|]. apply Hex. lia. }
  assert (forall k, 1 <= k -> nth_name stem k = numbered stem k) as Hname
    by (intros k Hk; unfold nth_name; rewrite (proj2 (N.eqb_neq k 0)) by lia; reflexivity).
  assert (forall k, 1 <= k -> (forall j, 1 <= j < k -> is_Some (D !! numbered stem j)) ->
            D !! numbered stem k = None ->
            tests_answer k -> replace_error E t cand d (numbered stem k) w = None ->
            placed_as (numbered stem k)) as Hleast.
  { intros k Hk Hex Hfree Hstat Hre.
    pose proof (resolve_dest_free E d cand w k) as Hr. cbv zeta in Hr.
    fold stem in Hr. rewrite (Hname k Hk) in Hr.
    specialize (Hr (Htaken k Hk Hex) Hfree Hstat).
    apply (place_moved E (fun _ => True) t d cand acc w _ f Hr Hfree Hre Hc). }
  split; [|split; [exact Hleast|split; [|split]]].
  - destruct (first_free_exists D stem) as (k & Hex & Hfree).
    assert (k <> 0) as Hk by (intros ->; change (nth_name stem 0) with (stem ++ lit ".mp3") in Hfree;
          rewrite Hfree in Hplain; destruct Hplain; discriminate).
    rewrite (Hname k) in Hfree by lia.
    exists k. split; [lia|]. split; [exact Hfree|].
    intros j Hj. rewrite <- (Hname j) by lia. apply Hex. lia.
  - intros k j msg Hk Hex Hfree Hj Hbefore Hat.
    apply place_search_fails.
    apply (resolve_dest_raises E d cand w k j msg); [apply Htaken; assumption| |exact Hj|exact Hbefore|exact Hat].
    fold stem. rewrite (Hname k Hk). exact Hfree.
  - intros Hs Hfree Hstat Hre. rewrite Hs in Hleast. apply (Hleast 1); [lia| |exact Hfree|exact Hstat|exact Hre].
    intros j Hj. lia.
  - intros Hs H1 Hfree Hstat Hre. rewrite Hs in Hleast.
    apply (Hleast 2); [lia| |exact Hfree|exact Hstat|exact Hre].
    intros j Hj. replace j with 1 by lia. exact H1.
Qed.

Lemma collision_counter_witness :
  let w := world_both [(lit "Song?.mp3", audio 1)] [(lit "Song.mp3", audio 0)] in
  exists w', place (env_of []) 1 (lit "out") (lit "Song?.mp3") [] w
             = (Ok [lit "Song (1).mp3"], w') /\
             f_data <$> (user_dir (lit "out") w' !! lit "Song (1).mp3") = Some [1] /\
             tmp_dir 1 w' !! lit "Song?.mp3" = None /\ dirs_kept w w'.
Proof.
  intros w.
  apply (proj1 (proj2 (proj2 (proj2
           (collision_counter (env_of []) 1 (lit "out") (lit "Song?.mp3") [] w (audio 1)
              (ex_intro _ (audio 0) eq_refl) eq_refl))))
           eq_refl eq_refl (fun _ _ => eq_refl) eq_refl).
Defined.

(** C3, as stated, fails: on a file system that refuses a name of more
    than 255 bytes, a title of 83 characters of three bytes each has a
    plain name of 253 bytes, which is taken, and a free numbered name of
    257 bytes, on which the test raises; no numbered name is given, the
    error is reported and the candidate is not placed. *)
Lemma long_name_not_numbered :
  let cand := long_title ++ lit ".mp3" in
  let w := world_both [(cand, audio 1)] [(cand, audio 0)] in
  let rw := place (env_name_max []) 1 (lit "out") cand [] w in
  safe_filename (Sys.stem cand) default_max_length = long_title /\
  user_dir (lit "out") w !! (long_title ++ lit ".mp3") = Some (audio 0) /\
  user_dir (lit "out") w !! numbered long_title 1 = None /\
  rw.1 = Ok [] /\
  log rw.2 = [place_error (lit "[Errno 36] File name too long")] /\
  user_dir (lit "out") rw.2 !! numbered long_title 1 = None /\
  tmp_dir 1 rw.2 !! cand = Some (audio 1).
Proof.
  cbv zeta.
  split; [vm_compute; reflexivity|]. split; [vm_compute; reflexivity|].
  split; [vm_compute; reflexivity|]. split; [vm_compute; reflexivity|].
  split; [vm_compute; reflexivity|]. split; vm_compute; reflexivity.
Qed.

(** The whole pipeline on the directory with Song.mp3: two candidates whose
    stems sanitize to Song are placed as the second and the third Song. *)
Example song_run :
  (download_and_validate
     (env_of [(lit "Song*.mp3", audio 1); (lit "Song?.mp3", audio 2)])
     (lit "https://youtu.be/x") (lit "out") (lit "192")
     (world_with [(lit "Song.mp3", audio 0)])).1
  = Ok [lit "Song (1).mp3"; lit "Song (2).mp3"].
Proof. vm_compute. reflexivity. Qed.

(** C4, as amended: the removal of the temporary directory is run on
    every way out of the block, whether the run returns, candidates fail or
    the fetch raises, and the run does return or raise.  When the removal
    does not fail, the directory is gone and the temporary directories are
    those from before the run, and the run returns its list or raises the
    error of the fetch; when the removal fails, the run raises the error of
    the removal and the directory is left.  No other temporary directory
    is touched, and a run whose destination cannot be made creates none. *)
Theorem scratch_removed (E : Env) (url final_out_dir quality : str) (w : World) :
  let rw := download_and_validate E url final_out_dir quality w in
  let t := scratch_of w in
  finished rw.1 /\ tmp_kept w rw.2 /\
  match mkdir_error E final_out_dir w with
  | Some _ => rw.2 = w
  | None =>
      match rmtree_error E t (block E url final_out_dir quality w).2 with
      | None =>
          tmpdirs rw.2 !! t = None /\ tmpdirs rw.2 = tmpdirs w /\
          match fetch_error E url final_out_dir quality w with
          | Some msg => rw.1 = Raised (Exception msg)
          | None => exists accepted, rw.1 = Ok accepted
          end
      | Some (msg, _) =>
          rw.1 = Raised (Exception msg) /\ is_Some (tmpdirs rw.2 !! t)
      end
  end.
Proof.
  intros rw t. subst rw t.
  destruct (download_and_validate_run E (fun _ => True) (fun _ _ => I)
              url final_out_dir quality w (fun _ => I))
    as (r & w' & Hrun & HT & _ & _ & Hout & _).
  split; [|split].
  - rewrite Hrun. cbn [fst]. destruct r as [a|[msg|code]|]; try exact I; exact Hout.
  - rewrite Hrun. exact HT.
  - clear Hrun. rewrite (run_cases E (fun _ => True) (fun _ _ => I)).
    destruct (mkdir_error E final_out_dir w) as [msg|]; [reflexivity|].
    destruct (leave_facts E (scratch_of w) (block E url final_out_dir quality w))
      as (_ & _ & HF & Hrm).
    destruct (rmtree_error E (scratch_of w) (block E url final_out_dir quality w).2)
      as [[msg remains]|]; [exact Hrm|].
    rewrite Hrm. cbn [fst snd closed tmpdirs].
    split; [apply lookup_delete_eq|]. split.
    + destruct (block_run E (fun _ => True) (fun _ _ => I) url final_out_dir quality w I)
        as (r' & w2 & -> & F & _). cbn [snd].
      destruct (frame_trans _ _ _ _ _ (frame_opened (fun _ => True) final_out_dir w) F)
        as (T2 & _ & _).
      apply map_eq. intros t. destruct (decide (t = scratch_of w)) as [->|Hne].
      * rewrite lookup_delete_eq, scratch_fresh. reflexivity.
      * rewrite lookup_delete_ne by congruence. apply (T2 t Hne).
    + rewrite (block_cases E). destruct (fetch_error E url final_out_dir quality w) as [msg|];
        [reflexivity|].
      destruct (for_candidates_run E (fun _ => True) (fun _ _ => I) (scratch_of w) final_out_dir
                  (sorted (mp3_names (tmp_dir (scratch_of w)
                                        (fetched E url final_out_dir quality w)))) []
                  (fetched E url final_out_dir quality w)) as (newly & w3 & -> & _).
      eauto.
Qed.

(** C4, as stated, fails: the fetch leaves a file that may not be removed;
    the candidate is placed, the removal of the temporary directory fails,
    and the run raises with the directory still there. *)
Lemma scratch_left_when_removal_fails :
  let rw := download_and_validate
              (env_rmtree_fails [(lit "a.mp3", audio 1); (lit "a.webm", audio 2)])
              (lit "https://youtu.be/x") (lit "out") (lit "192") empty_world in
  rw.1 = Raised (Exception (lit "[Errno 1] Operation not permitted")) /\
  tmpdirs rw.2 !! scratch_of empty_world = Some {[ lit "a.webm" := audio 2 ]} /\
  user_dir (lit "out") rw.2 !! lit "a.mp3" = Some (mkFile [1] 384).
Proof. vm_compute. auto. Qed.

(** A fetch that raises after writing a file, where the removal does not
    fail: the call raises, and no temporary directory is left. *)
Example fetch_error_leaves_no_scratch :
  let rw := download_and_validate (env_fetch_fails [(lit "a.mp3", audio 1)])
              (lit "https://youtu.be/x") (lit "out") (lit "192") empty_world in
  rw.1 = Raised (Exception (lit "DownloadError")) /\ tmpdirs rw.2 = ∅ /\
  user_dir (lit "out") rw.2 = ∅.
Proof. vm_compute. auto. Qed.

(** C5: after a run every file that was in a user directory is still
    there, unchanged; the accepted names are distinct, were free before the
    run and are taken after it; and from any point of the loop on, every
    file then present, so every file placed so far, is kept. *)
Theorem destination_grows (E : Env) (url final_out_dir quality : str) (w : World) :
  let rw := download_and_validate E url final_out_dir quality w in
  dirs_kept w rw.2 /\
  outcome_ok final_out_dir w rw.2 rw.1 /\
  (forall t cands acc w0,
     dirs_kept w0 (for_candidates E t final_out_dir cands acc w0).2).
Proof.
  intros rw. subst rw.
  destruct (download_and_validate_run E (fun _ => True) (fun _ _ => I)
              url final_out_dir quality w (fun _ => I))
    as (r & w' & -> & _ & HD & _ & Hout & _).
  cbn [fst snd]. split; [exact HD|]. split; [exact Hout|].
  intros t cands acc w0.
  destruct (for_candidates_run E (fun _ => True) (fun _ _ => I) t final_out_dir cands acc w0)
    as (newly & w1 & -> & (_ & D1 & _) & _). exact D1.
Qed.

Lemma destination_grows_witness :
  let E := env_of [(lit "Song*.mp3", audio 1); (lit "Song?.mp3", audio 2)] in
  let w := world_with [(lit "Song.mp3", audio 0)] in
  user_dir (lit "out")
    (download_and_validate E (lit "https://youtu.be/x") (lit "out") (lit "192") w).2
    !! lit "Song.mp3" = Some (audio 0).
Proof.
  intros E w.
  apply (proj1 (destination_grows E (lit "https://youtu.be/x") (lit "out") (lit "192") w)).
  reflexivity.
Defined.


(** C6, as amended: the decode check, with its 20 second limit, is run
    exactly when the inspection does not accept the candidate, whether the
    tool is missing, raises, runs over its 15 seconds, or reports no mp3
    token; the candidate is accepted when the inspection accepts it, and
    otherwise when the decode exits with status 0 in time. *)
Theorem fallback_when_primary_fails (E : Env) (path : str) (w : World) :
  let rw := validate E path w in
  log rw.2 = log w ++ probe_events E path w ++ decode_events E path w /\
  rw.1 = Ok (verdict E path w).
Proof.
  intros rw. apply validate_verdict.
Qed.

(** C6, as stated, fails: the inspection tool is there and reports
    another format, and the decode check is run all the same and accepts
    the candidate. *)
Lemma fallback_runs_after_other_format :
  let E := env_proc proc_other_format [] in
  let path := lit "/tmp/tmpdir/a.mp3" in
  which E (lit "ffprobe") empty_world = true /\
  contains (lit "mp3") (lower E (lit "wav")) = false /\
  validate E path empty_world
  = (Ok true, mkWorld ∅ ∅ [Spawn (ffprobe_argv path) 15; Spawn (ffmpeg_argv path) 20]).
Proof. vm_compute. auto. Qed.

(** C7, as amended: the validation of a candidate never raises; an
    inspection that raises does not accept, and leaves the verdict to the
    decode check; a decode check that raises rejects the candidate; and the
    loop goes on with the remaining candidates and returns. *)
Theorem tool_errors_never_propagate (E : Env) (path : str) (w : World) :
  (validate E path w).1 = Ok (verdict E path w) /\
  (primary_raises E path w = true ->
   verdict E path w = fallback_accepts E path (after_primary E path w)) /\
  (primary_accepts E path w = false ->
   fallback_raises E path (after_primary E path w) = true ->
   verdict E path w = false) /\
  (forall t d cand rest acc w0, exists acc' w',
     for_candidates E t d (cand :: rest) acc w0 = for_candidates E t d rest acc' w') /\
  (forall t d cands acc w0, exists accepted w',
     for_candidates E t d cands acc w0 = (Ok accepted, w')).
Proof.
  split; [apply validate_verdict|]. split; [|split; [|split]].
  - unfold verdict, primary_raises, primary_accepts.
    destruct (which E (lit "ffprobe") w); [|discriminate]. cbn [andb].
    destruct (proc E (ffprobe_argv path) w) as [msg|seconds out rc]; [reflexivity|].
    intros ->. reflexivity.
  - unfold verdict, fallback_raises, fallback_accepts. intros ->. cbn [orb].
    destruct (proc E (ffmpeg_argv path) _) as [msg|seconds out rc]; [reflexivity|].
    intros ->. reflexivity.
  - intros t d cand rest acc w0.
    destruct (for_candidates_cons E (fun _ => True) (fun _ _ => I) t d cand rest acc w0)
      as (acc' & w' & H & _). eauto.
  - intros t d cands acc w0.
    destruct (for_candidates_run E (fun _ => True) (fun _ _ => I) t d cands acc w0)
      as (newly & w' & H & _). eauto.
Qed.

Lemma tool_errors_never_propagate_witness :
  let E := env_proc proc_probe_timeout [] in
  let path := lit "/tmp/tmpdir/a.mp3" in
  verdict E path empty_world = fallback_accepts E path (after_primary E path empty_world).
Proof.
  intros E path.
  apply (proj1 (proj2 (tool_errors_never_propagate E path empty_world))).
  reflexivity.
Defined.

(** C7, as stated, fails: the inspection runs out of time, which raises,
    and the candidate is accepted by the decode check. *)
Lemma accepted_after_probe_timeout :
  let E := env_proc proc_probe_timeout [] in
  let path := lit "/tmp/tmpdir/a.mp3" in
  primary_raises E path empty_world = true /\
  (validate E path empty_world).1 = Ok true.
Proof. vm_compute. auto. Qed.

(** C8: the flag of the command line changes nothing: a run with it is
    the run without it, and every fetch is asked to expand playlists. *)
Theorem no_playlist_ignored (E : Env) (u o q : str) (w : World) :
  YtToMp3.main E (YtToMp3.mkNamespace u o q true) w
  = YtToMp3.main E (YtToMp3.mkNamespace u o q false) w /\
  keeps playlists_expanded (YtToMp3.main E (YtToMp3.mkNamespace u o q true)).
Proof. split; [reflexivity|apply cli_main_keeps]. Qed.

(** The run with the flag, evaluated: the one fetch has playlists on. *)
Example no_playlist_run :
  log (YtToMp3.main (env_of []) (song_args true) empty_world).2
  = [Stdout (lit "Downloading: https://youtu.be/x" ++ [10] ++ lit "Output directory: out");
     Ydl (YtToMp3.ydl_opts (lit "out") (lit "999")) (lit "https://youtu.be/x");
     Stdout (lit "Done.")]
  /\ noplaylist (YtToMp3.ydl_opts (lit "out") (lit "999")) = false.
Proof. vm_compute. auto. Qed.






(** The whole pipeline on three candidates with an empty sanitized stem. *)
Example empty_stem_run :
  (download_and_validate
     (env_of [(lit "?.mp3", audio 1); (lit "*.mp3", audio 2); (lit ":.mp3", audio 3)])
     (lit "https://youtu.be/x") (lit "out") (lit "192") empty_world).1
  = Ok [lit ".mp3"; lit " (1).mp3"; lit " (2).mp3"].
Proof. vm_compute. reflexivity. Qed.

End Claims.

(** ** Further properties *)

Import ProgressHook.

Module SanitizerMore.

Lemma solid_sub_ws s : solid (sub_ws s) = solid s /\ solid (in_ws s) = solid s.
Proof.
  unfold solid. induction s as [|c r [IH1 IH2]]; [auto|].
  cbn [sub_ws in_ws]. destruct (is_space c) eqn:Hc.
  - rewrite (filter_cons _ SPACE), decide_False by (cbn; congruence).
    rewrite (filter_cons _ c), decide_False by congruence. auto.
  - rewrite !(filter_cons _ c), !decide_True by exact Hc. rewrite IH1. auto.
Qed.

Lemma solid_lstrip s : solid (lstrip s) = solid s.
Proof.
  unfold solid. induction s as [|c r IH]; [reflexivity|]. cbn [lstrip].
  destruct (is_space c) eqn:Hc; [|reflexivity].
  rewrite (filter_cons _ c), decide_False by congruence. exact IH.
Qed.

Lemma solid_rstrip s : solid (rstrip s) = solid s.
Proof.
  unfold solid. induction s as [|c r IH]; [reflexivity|]. rewrite rstrip_cons.
  case_bool_decide as Hr.
  - rewrite Hr in IH. destruct (is_space c) eqn:Hc.
    + rewrite (filter_cons _ c), decide_False, <- IH by congruence. reflexivity.
    + rewrite !(filter_cons _ c), !decide_True, <- IH by exact Hc. reflexivity.
  - rewrite !(filter_cons _ c), IH. reflexivity.
Qed.

Lemma solid_sub_forbidden s : solid (sub_forbidden s) = kept s.
Proof.
  unfold solid, sub_forbidden, kept, droppable. induction s as [|c r IH]; [reflexivity|].
  destruct (forbidden c) eqn:Hf.
  - rewrite (filter_cons (fun c => forbidden c = false) c), decide_False by congruence.
    rewrite (filter_cons _ c), decide_False by (rewrite Hf; discriminate). exact IH.
  - rewrite (filter_cons (fun c => forbidden c = false) c), decide_True by exact Hf.
    destruct (is_space c) eqn:Hs.
    + rewrite (filter_cons _ c), decide_False by congruence.
      rewrite (filter_cons _ c), decide_False by (rewrite Hf, Hs; discriminate). exact IH.
    + rewrite (filter_cons _ c), decide_True by exact Hs.
      rewrite (filter_cons _ c), decide_True by (rewrite Hf, Hs; reflexivity).
      rewrite IH. reflexivity.
Qed.

Lemma solid_normalized s : solid (normalized s) = kept s.
Proof.
  unfold normalized, strip.
  rewrite solid_rstrip, solid_lstrip, (proj1 (solid_sub_ws _)). apply solid_sub_forbidden.
Qed.

Lemma solid_take k s : solid (take k s) `prefix_of` solid s.
Proof.
  unfold solid. rewrite <- (take_drop k s) at 2. rewrite filter_app.
  apply prefix_app_r. reflexivity.
Qed.

Lemma safe_filename_uncut s m :
  (len (normalized s) <= m)%Z -> safe_filename s m = normalized s.
Proof.
  intros Hl. rewrite safe_filename_unfold, Z.gtb_ltb.
  rewrite (proj2 (Z.ltb_ge _ _) Hl). reflexivity.
Qed.

Lemma tidy_plain s : tidy s -> plain_spaces s = true.
Proof.
  unfold plain_spaces. induction s as [|c r IH]; [reflexivity|]. intros [Hc Hr].
  cbn [forallb]. rewrite (IH Hr), andb_true_r.
  destruct (is_space c) eqn:E; [|reflexivity]. destruct (Hc eq_refl) as [-> _]. reflexivity.
Qed.

Lemma plain_tidy s : plain_spaces s = true -> has_ws_run s = false -> tidy s.
Proof.
  unfold plain_spaces. induction s as [|c r IH]; [intros; exact I|].
  cbn [forallb has_ws_run]. intros Hp Hr.
  apply andb_true_iff in Hp as [Hc Hp]. apply orb_false_iff in Hr as [Hcr Hr].
  split; [|auto]. intros Hs. rewrite Hs in Hc, Hcr. cbn in Hc, Hcr.
  apply N.eqb_eq in Hc. split; [exact Hc|]. destruct r; [exact I|exact Hcr].
Qed.

Lemma head_ok_starts s : head_ok s <-> starts_with_space s = false.
Proof. destruct s; cbn; [split; auto|reflexivity]. Qed.

Lemma safe_filename_starts s m : starts_with_space (safe_filename s m) = false.
Proof. apply head_ok_starts, safe_filename_facts. Qed.

Lemma normalized_nil s : normalized s = [] <-> forallb droppable s = true.
Proof.
  pose proof (solid_normalized s) as Hs. destruct (normalized_facts s) as (_ & _ & Hh & _).
  split.
  - intros Hn. rewrite Hn in Hs. unfold kept in Hs. apply forallb_forall.
    intros c Hc. apply list_elem_of_In in Hc. destruct (droppable c) eqn:Hd; [reflexivity|].
    assert (c ∈ filter (fun c => droppable c = false) s) as Hin
      by (apply list_elem_of_filter; auto).
    rewrite <- Hs in Hin. inversion Hin.
  - intros Hall. destruct (normalized s) as [|c r]; [reflexivity|].
    cbn in Hh. unfold solid in Hs. rewrite filter_cons, decide_True in Hs by exact Hh.
    assert (c ∈ kept s) as Hin by (rewrite <- Hs; left).
    apply list_elem_of_filter in Hin as [Hd Hin].
    rewrite forallb_forall in Hall. apply list_elem_of_In in Hin.
    rewrite (Hall c Hin) in Hd. discriminate.
Qed.

Lemma rstrip_take s : rstrip s = take (length (rstrip s)) s.
Proof.
  induction s as [|c r IH]; [reflexivity|]. rewrite rstrip_cons.
  case_bool_decide as Hr; [destruct (is_space c); reflexivity|].
  cbn [length take]. rewrite <- IH. reflexivity.
Qed.

End SanitizerMore.

Import SanitizerMore.

Module Names.

(** X1: in a sanitized name every whitespace character is the plain space
    and the first character is not whitespace; unless the name was cut, its
    last character is not whitespace either. *)
Theorem sanitized_whitespace (s : str) (max_length : Z) :
  plain_spaces (safe_filename s max_length) = true /\
  starts_with_space (safe_filename s max_length) = false /\
  ((len (normalized s) <= max_length)%Z ->
   ends_in_space (safe_filename s max_length) = false).
Proof.
  split; [apply tidy_plain, safe_filename_facts|]. split; [apply safe_filename_starts|].
  intros Hl. rewrite (safe_filename_uncut s max_length Hl). apply normalized_facts.
Qed.

(** X2: the sanitizer only deletes and replaces whitespace: the characters
    of the sanitized name that are not whitespace are, in order, the first
    of the characters of the input that are neither forbidden nor
    whitespace, and all of them unless the name was cut. *)
Theorem sanitized_only_deletes (s : str) (max_length : Z) :
  solid (safe_filename s max_length) `prefix_of` kept s /\
  ((len (normalized s) <= max_length)%Z -> solid (safe_filename s max_length) = kept s).
Proof.
  split.
  - destruct (safe_filename_take s max_length) as [k ->].
    rewrite <- solid_normalized. apply solid_take.
  - intros Hl. rewrite (safe_filename_uncut s max_length Hl). apply solid_normalized.
Qed.

(** X3: a name made only of forbidden and whitespace characters, the empty
    name among them, is sanitized to the empty name; for a positive bound
    no other name is. *)
Theorem sanitized_empty (s : str) (max_length : Z) :
  (forallb droppable s = true -> safe_filename s max_length = []) /\
  ((0 < max_length)%Z -> safe_filename s max_length = [] -> forallb droppable s = true).
Proof.
  split.
  - intros Hall. apply normalized_nil in Hall.
    destruct (safe_filename_take s max_length) as [k ->]. rewrite Hall. apply take_nil.
  - intros Hm Hnil. apply normalized_nil. rewrite safe_filename_unfold in Hnil.
    destruct (len (normalized s) >? max_length)%Z; [|exact Hnil].
    unfold slice_to in Hnil. rewrite (proj2 (Z.ltb_ge _ _)) in Hnil by lia.
    destruct (normalized s) as [|c r]; [reflexivity|].
    destruct (Z.to_nat max_length) eqn:Hk; [lia|discriminate].
Qed.

(** X4: for a bound that is not negative, the names that the sanitizer
    leaves as they are are exactly the names within the bound that have no
    forbidden character, no whitespace but single plain spaces, and no
    space at either end. *)
Theorem safe_name_fixed_point (s : str) (max_length : Z) :
  (0 <= max_length)%Z ->
  (safe_filename s max_length = s <->
   is_safe_name s = true /\ (len s <= max_length)%Z).
Proof.
  intros Hm. unfold is_safe_name. rewrite !andb_true_iff, !negb_true_iff. split.
  - intros Hfix.
    destruct (safe_filename_facts s max_length) as (Hc & Ht & Hh).
    pose proof (safe_filename_length s max_length Hm) as Hl.
    rewrite Hfix in Hc, Ht, Hh, Hl.
    assert (normalized s = rstrip s) as Hn.
    { unfold normalized, strip.
      rewrite (sub_forbidden_id _ Hc), (sub_ws_id _ Ht), (lstrip_id _ Hh). reflexivity. }
    assert (rstrip s = s) as Hr.
    { destruct (safe_filename_take s max_length) as [k Hk]. rewrite Hfix, Hn in Hk.
      pose proof (rstrip_length s) as Hle. pose proof (f_equal length Hk) as Hlen.
      rewrite length_take in Hlen.
      rewrite Hk at 2. symmetry. apply take_ge. lia. }
    split; [|exact Hl]. split; [split; [split; [split|]|]|].
    + exact Hc.
    + apply tidy_plain, Ht.
    + apply tidy_no_run, Ht.
    + apply head_ok_starts, Hh.
    + rewrite <- Hr. apply rstrip_last.
  - intros [[[[[Hc Hp] Hr] Hs] He] Hl].
    rewrite safe_filename_tidy_input; auto using rstrip_id, plain_tidy.
    apply head_ok_starts, Hs.
Qed.

Lemma safe_name_fixed_point_witness :
  safe_filename (lit "Back in Black") 150 = lit "Back in Black".
Proof.
  apply (proj2 (safe_name_fixed_point (lit "Back in Black") 150 ltac:(lia))).
  split; [reflexivity|]. vm_compute. discriminate.
Defined.

End Names.

Module PlacementMore.

Lemma has_forbidden_app a b : has_forbidden (a ++ b) = has_forbidden a || has_forbidden b.
Proof. apply existsb_app. Qed.

Lemma digits_clean d : has_forbidden (digits d) = false.
Proof. induction d; cbn; auto. Qed.

Lemma starts_with_app p y : starts_with p (p ++ y) = true.
Proof. induction p as [|a p IH]; [reflexivity|]. cbn. rewrite N.eqb_refl. exact IH. Qed.

Lemma ends_with_app x p : ends_with p (x ++ p) = true.
Proof. unfold ends_with. rewrite rev_app_distr. apply starts_with_app. Qed.

Lemma nth_name_mp3 stem k : ends_with (lit ".mp3") (nth_name stem k) = true.
Proof.
  unfold nth_name, numbered. destruct (k =? 0); [apply ends_with_app|].
  change (lit ").mp3") with ([41] ++ lit ".mp3"). rewrite !app_assoc. apply ends_with_app.
Qed.

Lemma nth_name_clean stem k : has_forbidden stem = false -> has_forbidden (nth_name stem k) = false.
Proof.
  intros Hs. unfold nth_name, numbered, str_of_int. destruct (k =? 0);
    rewrite !has_forbidden_app, ?Hs, ?digits_clean; reflexivity.
Qed.

Section WithEnv.

Context (E : Env).

Lemma move_ok t cand d dest acc w f :
  replace_error E t cand d dest w = None ->
  tmp_dir t w !! cand = Some f ->
  move E t cand d dest acc w =
  (Ok (acc ++ [dest]),
   match chmod_error E d dest (moved t cand d dest f w) with
   | None => set_dir d (<[dest := mkFile (f_data f) 384]>
                          (user_dir d (moved t cand d dest f w)))
               (moved t cand d dest f w)
   | Some _ => moved t cand d dest f w
   end).
Proof.
  intros Hre Hc.
  unfold move, os_replace, os_chmod, fail_if, try_except, modify, gets, raise,
    mbind, M_bind, mret, M_ret.
  cbv beta iota. rewrite Hre. cbv beta iota. rewrite Hc.
  fold (moved t cand d dest f w).
  assert (user_dir d (moved t cand d dest f w) !! dest = Some f) as Hd.
  { unfold moved. rewrite user_dir_set_dir, decide_True by reflexivity. apply lookup_insert_eq. }
  destruct (chmod_error E d dest (moved t cand d dest f w)); cbv beta iota;
    [reflexivity|]. rewrite Hd. reflexivity.
Qed.

Lemma move_fails t cand d dest acc w :
  is_Some (replace_error E t cand d dest w) \/ tmp_dir t w !! cand = None ->
  exists msg, move E t cand d dest acc w = (Raised (Exception msg), w) /\
    msg = match replace_error E t cand d dest w with
          | Some m => m
          | None => lit "FileNotFoundError"
          end.
Proof.
  intros H.
  unfold move, os_replace, fail_if, gets, raise, mbind, M_bind. cbv beta iota.
  destruct (replace_error E t cand d dest w) as [m|]; [eauto|].
  destruct H as [[? H]|H]; [discriminate|]. rewrite H. eauto.
Qed.

End WithEnv.

End PlacementMore.

Import PlacementMore.

Module Placement.

(** X5: the search for the destination name always ends, and changes
    nothing.  Some name among the plain name and the numbered ones is
    free; the search returns the first free one when the test raises on
    none of the names up to it, and otherwise raises the error of the first
    name on which the test raises.  The free name ends in .mp3 and has none
    of the forbidden characters, so no path separator. *)
Theorem resolve_dest_first_free (E : Env) (d cand : str) (w : World) :
  let stem := safe_filename (Sys.stem cand) default_max_length in
  exists k,
    user_dir d w !! nth_name stem k = None /\
    (forall j, j < k -> is_Some (user_dir d w !! nth_name stem j)) /\
    ends_with (lit ".mp3") (nth_name stem k) = true /\
    has_forbidden (nth_name stem k) = false /\
    resolve_dest E d cand w
    = (match search_error E d stem w (N.to_nat k) 0 with
       | Some msg => Raised (Exception msg)
       | None => Ok (nth_name stem k)
       end, w) /\
    ((forall j, j <= k -> stat_error E (path_join d (nth_name stem j)) w = None) ->
     resolve_dest E d cand w = (Ok (nth_name stem k), w)) /\
    (forall j msg, j <= k ->
       (forall i, i < j -> stat_error E (path_join d (nth_name stem i)) w = None) ->
       stat_error E (path_join d (nth_name stem j)) w = Some msg ->
       resolve_dest E d cand w = (Raised (Exception msg), w)).
Proof.
  intros stem. destruct (first_free_exists (user_dir d w) stem) as (k & Hex & Hfree).
  exists k. split; [exact Hfree|]. split; [exact Hex|]. split; [apply nth_name_mp3|].
  split; [apply nth_name_clean, safe_filename_facts|].
  split; [apply (resolve_dest_run E d cand w k Hex Hfree)|]. split.
  - apply (resolve_dest_free E d cand w k Hex Hfree).
  - intros j msg. apply (resolve_dest_raises E d cand w k j msg Hex Hfree).
Qed.

(** On a file system that refuses a name of more than 255 bytes, the
    search for a title of 83 characters of three bytes each, whose plain
    name is taken, raises. *)
Example resolve_dest_long_name :
  let cand := long_title ++ lit ".mp3" in
  (resolve_dest (env_name_max []) (lit "out") cand
     (world_both [] [(cand, audio 0)])).1
  = Raised (Exception (lit "[Errno 36] File name too long")).
Proof. vm_compute. reflexivity. Qed.

(** X6: the inspection never raises and touches no file.  Without ffprobe
    on the path it answers False and starts no process; with it, one
    process is started, and the answer is True exactly when that process
    ends within 15 seconds with mp3 in its lowered output, whatever its
    exit status. *)
Theorem ffprobe_answer (E : Env) (path : str) (w : World) :
  let rw := ffprobe_recognizes_mp3 E path w in
  tmpdirs rw.2 = tmpdirs w /\ dirs rw.2 = dirs w /\
  match which E (lit "ffprobe") w, proc E (ffprobe_argv path) w with
  | false, _ => rw = (Ok false, w)
  | true, LaunchError _ => rw = (Ok false, log_event (Spawn (ffprobe_argv path) 15) w)
  | true, Exited seconds out rc =>
      rw = (Ok (negb (15 <? seconds) && contains (lit "mp3") (lower E out)),
            log_event (Spawn (ffprobe_argv path) 15) w)
  end.
Proof.
  intros rw. subst rw. rewrite ffprobe_run. unfold primary_accepts, after_primary.
  destruct (which E (lit "ffprobe") w); cbn [andb fst snd]; [|auto].
  destruct (proc E (ffprobe_argv path) w); auto.
Qed.

(** An inspection that exits with status 1 and reports mp3 accepts. *)
Example ffprobe_status_ignored :
  (ffprobe_recognizes_mp3 (env_proc (fun _ => Exited 1 (lit "MP3") 1) [])
     (lit "/tmp/tmpdir/a.mp3") empty_world).1 = Ok true.
Proof. reflexivity. Qed.

(** X7: the validation of a candidate reads only: no directory is changed
    by it, it always returns a verdict, and it starts at most two
    processes. *)
Theorem validate_read_only (E : Env) (path : str) (w : World) :
  let rw := validate E path w in
  tmpdirs rw.2 = tmpdirs w /\ dirs rw.2 = dirs w /\
  (exists ok, rw.1 = Ok ok) /\
  (length (log rw.2) <= length (log w) + 2)%nat.
Proof.
  intros rw. subst rw. rewrite validate_run. unfold after_primary.
  destruct (primary_accepts E path w), (which E (lit "ffprobe") w);
    cbn [fst snd tmpdirs dirs log log_event]; rewrite ?length_app; cbn [length];
    (split; [reflexivity|]); (split; [reflexivity|]); (split; [eauto|lia]).
Qed.

(** X8: a rejected candidate is always reported, by one warning that names
    it, and nothing is raised even when its removal fails; no user
    directory and no other file of the temporary directory is touched, and
    the candidate is gone when the removal did not fail. *)
Theorem discard_behaviour (E : Env) (t : positive) (cand : str) (w : World) :
  let rw := discard E t cand w in
  rw.1 = Ok tt /\
  log rw.2 = log w ++ [discard_warning cand] /\
  dirs rw.2 = dirs w /\
  (forall n, n <> cand -> tmp_dir t rw.2 !! n = tmp_dir t w !! n) /\
  (unlink_error E t cand (log_event (discard_warning cand) w) = None ->
   tmp_dir t rw.2 !! cand = None).
Proof.
  intros rw. subst rw.
  unfold discard, emit, modify, unlink, fail_if, try_except, gets, raise,
    mbind, M_bind, mret, M_ret.
  cbv beta iota. fold (discard_warning cand).
  destruct (unlink_error E t cand (log_event (discard_warning cand) w)) as [msg|];
    cbv beta iota.
  - cbn [fst snd]. do 4 (split; [auto|]). discriminate.
  - change (tmp_dir t (log_event (discard_warning cand) w)) with (tmp_dir t w).
    destruct (tmp_dir t w !! cand) eqn:Hc; unfold modify; cbv beta iota; cbn [fst snd].
    + do 3 (split; [reflexivity|]). rewrite tmp_dir_set_tmp. split.
      * intros n Hn. apply lookup_delete_ne. congruence.
      * intros _. apply lookup_delete_eq.
    + do 4 (split; [auto|]). intros _. exact Hc.
Qed.

(** X9: when the move does not fail, the candidate is accepted under the
    resolved name: it leaves the temporary directory and is in the
    destination with its contents, with mode 0o600 if the change of mode
    worked and with its old mode if not; nothing is written to the log. *)
Theorem place_moves (E : Env) (t : positive) (d cand dest : str)
    (acc : list str) (w : World) (f : File) :
  resolve_dest E d cand w = (Ok dest, w) ->
  tmp_dir t w !! cand = Some f ->
  replace_error E t cand d dest w = None ->
  let rw := place E t d cand acc w in
  rw.1 = Ok (acc ++ [dest]) /\
  user_dir d rw.2 !! dest = Some (placed_file E t cand d dest f w) /\
  tmp_dir t rw.2 !! cand = None /\
  log rw.2 = log w.
Proof.
  intros Hres Hc Hre rw. subst rw. rewrite place_unfold.
  pose proof (move_ok E t cand d dest acc w f Hre Hc) as Hm.
  erewrite try_ok; [|rewrite (bind_ok _ _ _ _ _ Hres); exact Hm].
  cbn [fst snd]. split; [reflexivity|]. unfold placed_file.
  assert (user_dir d (moved t cand d dest f w) !! dest = Some f) as Hd.
  { unfold moved. rewrite user_dir_set_dir, decide_True by reflexivity. apply lookup_insert_eq. }
  assert (tmp_dir t (moved t cand d dest f w) !! cand = None) as Ht.
  { unfold moved. change (tmp_dir t (set_dir ?a ?b ?c)) with (tmp_dir t c).
    rewrite tmp_dir_set_tmp. apply lookup_delete_eq. }
  destruct (chmod_error E d dest (moved t cand d dest f w)).
  - auto.
  - split; [|split; [exact Ht|reflexivity]].
    rewrite user_dir_set_dir, decide_True by reflexivity. apply lookup_insert_eq.
Qed.

Lemma place_moves_witness :
  let w := world_tmp [(lit "Song.mp3", audio 7)] in
  (place (env_of []) 1 (lit "out") (lit "Song.mp3") [] w).1 = Ok [lit "Song.mp3"].
Proof.
  intros w.
  apply (place_moves (env_of []) 1 (lit "out") (lit "Song.mp3") (lit "Song.mp3") [] w
           (audio 7) eq_refl eq_refl eq_refl).
Defined.

(** X10: when the move fails, nothing is raised: the error is reported
    with its message, the accepted list is returned as it was, and no
    directory is touched, so the candidate stays in the temporary
    directory. *)
Theorem place_reports_failure (E : Env) (t : positive) (d cand dest : str)
    (acc : list str) (w : World) (msg : str) :
  resolve_dest E d cand w = (Ok dest, w) ->
  replace_error E t cand d dest w = Some msg ->
  place E t d cand acc w = (Ok acc, log_event (place_error msg) w).
Proof.
  intros Hres Hre. rewrite place_unfold.
  destruct (move_fails E t cand d dest acc w) as (m & Hm & ->).
  { left. rewrite Hre. eauto. }
  rewrite Hre in Hm.
  erewrite try_caught; [|rewrite (bind_ok _ _ _ _ _ Hres); exact Hm].
  reflexivity.
Qed.

Lemma place_reports_failure_witness :
  let E := mkEnv (fun _ _ => true) (fun _ _ => Exited 1 (lit "mp3") 0)
             (fun _ _ _ => ([], None)) (fun _ _ => None) (fun _ _ _ => None)
             (fun _ _ _ _ _ => Some (lit "PermissionError")) (fun _ _ _ => None)
             (fun _ _ => None) (fun _ _ => None) (fun _ _ => None) (fun _ _ => None)
             (fun _ => lit "/tmp/tmpdir") (lit "/home/user") ascii_lower posix_path in
  let w := world_tmp [(lit "Song.mp3", audio 7)] in
  place E 1 (lit "out") (lit "Song.mp3") [] w
  = (Ok [], log_event (place_error (lit "PermissionError")) w).
Proof.
  intros E w.
  apply (place_reports_failure E 1 (lit "out") (lit "Song.mp3") (lit "Song.mp3") [] w
           (lit "PermissionError") eq_refl eq_refl).
Defined.

End Placement.

Module LoopMore.

Lemma resolve_dest_good E d cand w :
  (exists msg, resolve_dest E d cand w = (Raised (Exception msg), w)) \/
  (exists dest, resolve_dest E d cand w = (Ok dest, w) /\
     user_dir d w !! dest = None /\ good_name dest).
Proof.
  destruct (resolve_dest_total E d cand w) as [(msg & Hres)|(k & Hres & Hfree)];
    [left; eauto|right].
  eexists. split; [exact Hres|]. split; [exact Hfree|].
  split; [apply nth_name_mp3|apply nth_name_clean, safe_filename_facts].
Qed.

Lemma dirs_gain_same d w w' : dirs w' = dirs w -> dirs_gain d [] w w'.
Proof. intros Hd d' n H. left. unfold user_dir in *. rewrite <- Hd. exact H. Qed.

Lemma dirs_gain_trans d n1 n2 w1 w2 w3 :
  dirs_gain d n1 w1 w2 -> dirs_gain d n2 w2 w3 -> dirs_gain d (n1 ++ n2) w1 w3.
Proof.
  intros G1 G2 d' n H. destruct (G2 d' n H) as [H2|[-> Hin]].
  - destruct (G1 d' n H2) as [H1|[-> Hin]]; [left; exact H1|].
    right. split; [reflexivity|]. apply elem_of_app. auto.
  - right. split; [reflexivity|]. apply elem_of_app. auto.
Qed.

Lemma user_dir_moved t cand d dest f w d' :
  user_dir d' (moved t cand d dest f w)
  = if decide (d = d') then <[dest := f]> (user_dir d w) else user_dir d' w.
Proof. unfold moved. rewrite user_dir_set_dir. reflexivity. Qed.

Lemma moved_other t cand d dest f w d' n :
  d' <> d \/ n <> dest ->
  user_dir d' (moved t cand d dest f w) !! n = user_dir d' w !! n.
Proof.
  intros H. rewrite user_dir_moved. destruct (decide (d = d')) as [<-|Hd]; [|reflexivity].
  destruct H as [H|H]; [congruence|]. apply lookup_insert_ne. congruence.
Qed.

Lemma chmod_other t cand d dest f g w d' n :
  d' <> d \/ n <> dest ->
  user_dir d' (set_dir d (<[dest := g]> (user_dir d (moved t cand d dest f w)))
                 (moved t cand d dest f w)) !! n
  = user_dir d' w !! n.
Proof.
  intros H. rewrite user_dir_set_dir. destruct (decide (d = d')) as [<-|Hd].
  - destruct H as [H|H]; [congruence|]. rewrite lookup_insert_ne by congruence.
    apply moved_other. auto.
  - apply moved_other. auto.
Qed.

Section WithEnv.

Context (E : Env).

Lemma validate_fs path w :
  exists wv, validate E path w = (Ok (verdict E path w), wv) /\
    dirs wv = dirs w /\ tmpdirs wv = tmpdirs w /\
    exists new, log wv = log w ++ new /\ Forall (fun e => is_fetch e = false) new.
Proof.
  destruct (validate_verdict E path w) as [Hl Hv].
  destruct (validate E path w) as [r wv] eqn:Hrun. cbn [fst snd] in *. subst r.
  exists wv. split; [reflexivity|].
  rewrite validate_run in Hrun. unfold after_primary in Hrun.
  split; [|split].
  - destruct (primary_accepts E path w), (which E (lit "ffprobe") w);
      injection Hrun as _ <-; reflexivity.
  - destruct (primary_accepts E path w), (which E (lit "ffprobe") w);
      injection Hrun as _ <-; reflexivity.
  - eexists. split; [exact Hl|]. unfold probe_events, decode_events.
    destruct (primary_accepts E path w), (which E (lit "ffprobe") w);
      repeat constructor.
Qed.

(** What the placement of one candidate does. *)
Lemma place_cases t d cand acc w :
  (exists msg, place E t d cand acc w = (Ok acc, log_event (place_error msg) w)) \/
  (exists dest f, resolve_dest E d cand w = (Ok dest, w) /\
     user_dir d w !! dest = None /\ good_name dest /\
     tmp_dir t w !! cand = Some f /\
     place E t d cand acc w =
     (Ok (acc ++ [dest]),
      match chmod_error E d dest (moved t cand d dest f w) with
      | None => set_dir d (<[dest := mkFile (f_data f) 384]>
                             (user_dir d (moved t cand d dest f w)))
                  (moved t cand d dest f w)
      | Some _ => moved t cand d dest f w
      end)).
Proof.
  destruct (resolve_dest_good E d cand w) as [(msg & Hres)|(dest & Hres & Hfree & Hgood)].
  { left. exists msg. apply (place_search_fails E), Hres. }
  rewrite place_unfold.
  destruct (replace_error E t cand d dest w) as [m|] eqn:Hre.
  - left. destruct (move_fails E t cand d dest acc w) as (msg & Hm & _).
    { left. rewrite Hre. eauto. }
    exists msg. erewrite try_caught; [|rewrite (bind_ok _ _ _ _ _ Hres); exact Hm].
    reflexivity.
  - destruct (tmp_dir t w !! cand) as [f|] eqn:Hc.
    + right. exists dest, f. do 4 (split; [auto|]).
      erewrite try_ok; [|rewrite (bind_ok _ _ _ _ _ Hres); apply (move_ok E t cand d dest acc w f Hre Hc)].
      reflexivity.
    + left. destruct (move_fails E t cand d dest acc w) as (msg & Hm & _); [auto|].
      exists msg. erewrite try_caught; [|rewrite (bind_ok _ _ _ _ _ Hres); exact Hm].
      reflexivity.
Qed.

Lemma place_gain t d cand acc w :
  exists step w', place E t d cand acc w = (Ok (acc ++ step), w') /\
    (length step <= 1)%nat /\ dirs_gain d step w w' /\ Forall good_name step /\
    exists new, log w' = log w ++ new /\ Forall (fun e => is_fetch e = false) new.
Proof.
  destruct (place_cases t d cand acc w)
    as [(msg & ->)|(dest & f & _ & _ & Hgood & _ & ->)].
  - exists [], (log_event (place_error msg) w). rewrite app_nil_r.
    split; [reflexivity|]. split; [cbn; lia|]. split; [apply dirs_gain_same; reflexivity|].
    split; [constructor|]. exists [place_error msg]. split; [reflexivity|repeat constructor].
  - eexists [dest], _. split; [reflexivity|]. split; [cbn; lia|]. split; [|split].
    + intros d' n H.
      destruct (decide (d' = d /\ n = dest)) as [[-> ->]|Hne].
      * right. split; [reflexivity|]. apply list_elem_of_singleton. reflexivity.
      * left. assert (d' <> d \/ n <> dest) as Ho
          by (destruct (decide (d' = d)); [right; intros ->; auto|left; auto]).
        revert H. destruct (chmod_error E d dest _);
          [rewrite (moved_other _ _ _ _ _ _ _ _ Ho)|rewrite (chmod_other _ _ _ _ _ _ _ _ _ Ho)];
          auto.
    + repeat constructor; apply Hgood.
    + exists []. rewrite app_nil_r. split; [|constructor].
      destruct (chmod_error E d dest _); reflexivity.
Qed.

Lemma discard_fs t cand w :
  exists w', discard E t cand w = (Ok tt, w') /\ dirs w' = dirs w /\
    log w' = log w ++ [discard_warning cand].
Proof.
  unfold discard, emit, unlink, fail_if, try_except, gets, raise, modify,
    mbind, M_bind, mret, M_ret.
  cbv beta iota. fold (discard_warning cand).
  destruct (unlink_error E t cand _); [|destruct (tmp_dir t _ !! cand)];
    eexists; split; reflexivity || (split; reflexivity).
Qed.

(** One turn of the loop. *)
Lemma loop_step t d cand rest acc w :
  exists step w1,
    for_candidates E t d (cand :: rest) acc w = for_candidates E t d rest (acc ++ step) w1 /\
    (length step <= 1)%nat /\ dirs_gain d step w w1 /\ Forall good_name step /\
    (exists new, log w1 = log w ++ new /\ Forall (fun e => is_fetch e = false) new) /\
    (verdict E (cand_path E t cand) w = false ->
     step = [] /\ dirs w1 = dirs w /\ discard_warning cand ∈ log w1).
Proof.
  cbn [for_candidates]. fold (cand_path E t cand).
  destruct (validate_fs (cand_path E t cand) w) as (wv & Hv & Hd & _ & newv & Hlv & Hfv).
  rewrite (bind_ok _ _ _ _ _ Hv). destruct (verdict E (cand_path E t cand) w); cbn [negb].
  - destruct (place_gain t d cand acc wv) as (step & w1 & Hp & Hlen & Hg & Hgood & new & Hl & Hf).
    rewrite (bind_ok _ _ _ _ _ Hp). exists step, w1. split; [reflexivity|].
    split; [exact Hlen|]. split; [|split; [exact Hgood|split]].
    + apply (dirs_gain_trans d [] step w wv w1); [apply dirs_gain_same, Hd|exact Hg].
    + exists (newv ++ new). rewrite Hl, Hlv, app_assoc. split; [reflexivity|].
      apply Forall_app; auto.
    + discriminate.
  - destruct (discard_fs t cand wv) as (w1 & Hdis & Hd1 & Hl1).
    rewrite (bind_ok _ _ _ _ _ Hdis). exists [], w1. rewrite app_nil_r.
    split; [reflexivity|]. split; [cbn; lia|].
    split; [apply dirs_gain_same; congruence|]. split; [constructor|]. split.
    + exists (newv ++ [discard_warning cand]). rewrite Hl1, Hlv, app_assoc.
      split; [reflexivity|]. apply Forall_app. split; [exact Hfv|repeat constructor].
    + intros _. split; [reflexivity|]. split; [congruence|].
      rewrite Hl1. apply elem_of_app. right. apply list_elem_of_singleton. reflexivity.
Qed.

Lemma loop_gain t d cands : forall acc w,
  exists newly w',
    for_candidates E t d cands acc w = (Ok (acc ++ newly), w') /\
    (length newly <= length cands)%nat /\ dirs_gain d newly w w' /\
    Forall good_name newly /\
    exists new, log w' = log w ++ new /\ Forall (fun e => is_fetch e = false) new.
Proof.
  induction cands as [|cand rest IH]; intros acc w.
  - exists [], w. rewrite app_nil_r. split; [reflexivity|]. split; [reflexivity|].
    split; [apply dirs_gain_same; reflexivity|]. split; [constructor|].
    exists []. rewrite app_nil_r. split; [reflexivity|constructor].
  - destruct (loop_step t d cand rest acc w)
      as (step & w1 & -> & Hlen & Hg & Hgood & (new1 & Hl1 & Hf1) & _).
    destruct (IH (acc ++ step) w1) as (newly & w' & -> & Hlen' & Hg' & Hgood' & new2 & Hl2 & Hf2).
    exists (step ++ newly), w'. split; [rewrite app_assoc; reflexivity|].
    split; [rewrite length_app; cbn [length]; lia|].
    split; [eapply dirs_gain_trans; eauto|]. split; [apply Forall_app; auto|].
    exists (new1 ++ new2). rewrite Hl2, Hl1, app_assoc. split; [reflexivity|].
    apply Forall_app; auto.
Qed.

End WithEnv.

End LoopMore.

Import LoopMore.

Module GlobMore.

Lemma str_le_total a b : str_le a b = false -> str_le b a = true.
Proof.
  revert b. induction a as [|x a IH]; intros [|y b]; cbn; try discriminate; try reflexivity.
  intros H. apply orb_false_iff in H as [Hlt H]. apply N.ltb_ge in Hlt.
  destruct (N.eqb_spec x y) as [->|Hne].
  - cbn in H. rewrite N.eqb_refl, (IH _ H). cbn. apply orb_true_r.
  - assert ((y <? x) = true) as -> by (apply N.ltb_lt; lia). reflexivity.
Qed.

Lemma str_le_trans a b c : str_le a b = true -> str_le b c = true -> str_le a c = true.
Proof.
  revert b c. induction a as [|x a IH]; intros [|y b] [|z c]; cbn; try discriminate; auto.
  rewrite !orb_true_iff, !andb_true_iff, !N.ltb_lt, !N.eqb_eq.
  intros [H1|[-> H1]] [H2|[-> H2]].
  - left. lia.
  - left. exact H1.
  - left. exact H2.
  - right. split; [reflexivity|]. eapply IH; eauto.
Qed.

Lemma insert_sorted_perm x l : Permutation (insert_sorted x l) (x :: l).
Proof.
  induction l as [|y r IH]; [reflexivity|]. cbn. destruct (str_le x y); [reflexivity|].
  rewrite IH. apply perm_swap.
Qed.

Lemma sorted_perm l : Permutation (sorted l) l.
Proof.
  induction l as [|x r IH]; [reflexivity|]. cbn. rewrite insert_sorted_perm, IH. reflexivity.
Qed.

Lemma insert_sorted_sorted x l :
  Sorted str_le_rel l -> Sorted str_le_rel (insert_sorted x l).
Proof.
  induction l as [|y r IH]; intros Hs; [repeat constructor|].
  cbn. destruct (str_le x y) eqn:Hxy.
  - constructor; [exact Hs|constructor; exact Hxy].
  - inversion Hs as [|? ? Hr Hhd]; subst. constructor; [apply IH, Hr|].
    destruct r as [|z r']; cbn.
    + constructor. apply str_le_total, Hxy.
    + destruct (str_le x z); constructor; [apply str_le_total, Hxy|].
      inversion Hhd; subst. assumption.
Qed.

Lemma sorted_sorted l : Sorted str_le_rel (sorted l).
Proof. induction l as [|x r IH]; [constructor|]. cbn. apply insert_sorted_sorted, IH. Qed.

Lemma sorted_strongly l : StronglySorted str_le_rel (sorted l).
Proof.
  apply Sorted_StronglySorted; [|apply sorted_sorted].
  intros a b c. apply str_le_trans.
Qed.

Lemma mp3_names_spec D n :
  n ∈ mp3_names D <-> is_Some (D !! n) /\ ends_with (lit ".mp3") n = true.
Proof.
  unfold mp3_names. rewrite list_elem_of_filter, list_elem_of_fmap. split.
  - intros [He ([n' f] & -> & Hin)]. apply elem_of_map_to_list in Hin. eauto.
  - intros [[f Hf] He]. split; [exact He|]. exists (n, f). split; [reflexivity|].
    apply elem_of_map_to_list, Hf.
Qed.

Lemma mp3_names_NoDup D : NoDup (mp3_names D).
Proof. apply NoDup_filter, NoDup_fst_map_to_list. Qed.

Lemma mp3_names_length D : (length (mp3_names D) <= size D)%nat.
Proof.
  unfold mp3_names. etransitivity; [apply length_filter|].
  rewrite length_map, length_map_to_list. reflexivity.
Qed.

End GlobMore.

Import GlobMore.

Module RunMore.

Section WithEnv.

Context (E : Env).

(** A run, step by step. *)
Lemma run_steps url d q w :
  download_and_validate E url d q w =
  match mkdir_error E d w with
  | Some msg => (Raised (Exception msg), w)
  | None =>
      leave E (scratch_of w)
        match fetch_error E url d q w with
        | Some msg => (Raised (Exception msg), fetched E url d q w)
        | None =>
            for_candidates E (scratch_of w) d
              (sorted (mp3_names (tmp_dir (scratch_of w) (fetched E url d q w))))
              [] (fetched E url d q w)
        end
  end.
Proof.
  rewrite (run_cases E (fun _ => True) (fun _ _ => I)).
  destruct (mkdir_error E d w); [reflexivity|]. rewrite block_cases. reflexivity.
Qed.

Lemma user_dir_leave {A} t (rw : Result A * World) d' :
  user_dir d' (leave E t rw).2 = user_dir d' rw.2.
Proof. unfold user_dir. rewrite (proj1 (leave_facts E t rw)). reflexivity. Qed.


(** What leaving the block gives: the result of the block, or the error
    of the removal. *)
Lemma leave_result {A} t (rw : Result A * World) :
  (leave E t rw).1 =
  match rmtree_error E t rw.2 with
  | None => rw.1
  | Some (msg, _) => Raised (Exception msg)
  end.
Proof.
  destruct (leave_facts E t rw) as (_ & _ & _ & H).
  destruct (rmtree_error E t rw.2) as [[msg remains]|]; [apply H|rewrite H; reflexivity].
Qed.

Lemma user_dir_fetched url d q w d' : user_dir d' (fetched E url d q w) = user_dir d' w.
Proof. apply user_dir_opened. Qed.


Lemma tmpdirs_closed_fetched url d q w :
  tmpdirs (closed (scratch_of w) (fetched E url d q w)) = tmpdirs w.
Proof.
  unfold closed, fetched, write_files, opened, log_event, set_tmp, set_dir. cbn [tmpdirs].
  rewrite !delete_insert_eq. apply delete_id. apply scratch_fresh.
Qed.

(** The loop of a run: the names it accepts are the names the destination
    gains. *)
Lemma loop_exact t d cands w :
  exists accepted w', for_candidates E t d cands [] w = (Ok accepted, w') /\
    (length accepted <= length cands)%nat /\ Forall good_name accepted /\
    (exists new, log w' = log w ++ new /\ Forall (fun e => is_fetch e = false) new) /\
    forall d' n, is_Some (user_dir d' w' !! n) <->
                 is_Some (user_dir d' w !! n) \/ (d' = d /\ n ∈ accepted).
Proof.
  destruct (loop_gain E t d cands [] w) as (newly & w' & Hrun & Hlen & Hg & Hgood & Hlog).
  destruct (for_candidates_run E (fun _ => True) (fun _ _ => I) t d cands [] w)
    as (newly' & w'' & Hrun' & (_ & Hk & _) & _ & Hnew).
  assert (newly' = newly /\ w'' = w') as [-> ->]
    by (rewrite Hrun in Hrun'; injection Hrun'; auto).
  exists newly, w'. split; [exact Hrun|]. split; [exact Hlen|]. split; [exact Hgood|].
  split; [exact Hlog|]. intros d' n. split.
  - apply Hg.
  - intros [[f Hf]|[-> Hin]]; [rewrite (Hk _ _ _ Hf); eauto|apply (Hnew n Hin)].
Qed.

End WithEnv.

End RunMore.

Import RunMore.

Module Runs.

(** X11: the candidates of a run are the names of the temporary directory
    that end in .mp3, each once, in ascending order of their code points;
    listing them changes nothing. *)
Theorem glob_lists_mp3 (t : positive) (w : World) :
  exists l, glob_mp3 t w = (Ok l, w) /\
    NoDup l /\
    (forall n, n ∈ l <-> is_Some (tmp_dir t w !! n) /\ ends_with (lit ".mp3") n = true) /\
    StronglySorted str_le_rel l.
Proof.
  exists (sorted (mp3_names (tmp_dir t w))). split; [reflexivity|].
  split; [|split; [|apply sorted_strongly]].
  - rewrite sorted_perm. apply mp3_names_NoDup.
  - intros n. rewrite sorted_perm. apply mp3_names_spec.
Qed.

(** X12: a candidate that fails validation is never placed: the loop goes
    on with the same accepted list and the same user directories, and the
    warning about the candidate is in the log. *)
Theorem rejected_candidate_skipped (E : Env) (t : positive) (d cand : str)
    (rest acc : list str) (w : World) :
  verdict E (cand_path E t cand) w = false ->
  exists w',
    for_candidates E t d (cand :: rest) acc w = for_candidates E t d rest acc w' /\
    dirs w' = dirs w /\ discard_warning cand ∈ log w'.
Proof.
  intros Hv. destruct (loop_step E t d cand rest acc w) as (step & w1 & Heq & _ & _ & _ & _ & H).
  destruct (H Hv) as (-> & Hd & Hl). rewrite app_nil_r in Heq. eauto.
Qed.

Lemma rejected_candidate_skipped_witness :
  let E := env_proc (fun _ => Exited 1 [] 1) [] in
  let w := world_tmp [(lit "a.mp3", audio 7)] in
  exists w',
    for_candidates E 1 (lit "out") [lit "a.mp3"] [] w = for_candidates E 1 (lit "out") [] [] w' /\
    dirs w' = dirs w /\ discard_warning (lit "a.mp3") ∈ log w'.
Proof.
  intros E w.
  apply (rejected_candidate_skipped E 1 (lit "out") (lit "a.mp3") [] [] w eq_refl).
Defined.



(** X15: when a run returns, the destination has gained exactly the
    accepted names and no user directory anything else.  When a run raises
    because the destination cannot be made or because the fetch raises, no
    user directory has any other content than before; when it raises
    because the removal of the temporary directory fails after the loop,
    the destination has gained exactly the names that the loop accepted. *)
Theorem destination_gains_accepted (E : Env) (url d q : str) (w : World) :
  let rw := download_and_validate E url d q w in
  match rw.1 with
  | Ok accepted =>
      forall d' n, is_Some (user_dir d' rw.2 !! n) <->
                   is_Some (user_dir d' w !! n) \/ (d' = d /\ n ∈ accepted)
  | _ =>
      match mkdir_error E d w, fetch_error E url d q w with
      | None, None =>
          exists accepted,
            (block E url d q w).1 = Ok accepted /\
            forall d' n, is_Some (user_dir d' rw.2 !! n) <->
                         is_Some (user_dir d' w !! n) \/ (d' = d /\ n ∈ accepted)
      | _, _ => forall d', user_dir d' rw.2 = user_dir d' w
      end
  end.
Proof.
  intros rw. subst rw. rewrite run_steps.
  destruct (mkdir_error E d w) as [msg|]; [cbn [fst snd]; reflexivity|].
  rewrite block_cases.
  destruct (fetch_error E url d q w) as [msg|].
  - rewrite leave_result. cbn [fst snd].
    assert (forall d', user_dir d' (leave E (scratch_of w)
              (Raised (Exception msg) : Result (list str), fetched E url d q w)).2
              = user_dir d' w) as Hd
      by (intros d'; rewrite user_dir_leave; apply (user_dir_fetched E url d q w d')).
    destruct (rmtree_error E (scratch_of w) (fetched E url d q w)) as [[m remains]|]; exact Hd.
  - destruct (loop_exact E (scratch_of w) d
                (sorted (mp3_names (tmp_dir (scratch_of w) (fetched E url d q w))))
                (fetched E url d q w)) as (accepted & w' & -> & _ & _ & _ & Hiff).
    rewrite leave_result. cbn [fst snd].
    assert (forall d' n, is_Some (user_dir d' (leave E (scratch_of w) (Ok accepted, w')).2 !! n) <->
              is_Some (user_dir d' w !! n) \/ (d' = d /\ n ∈ accepted)) as Hd.
    { intros d' n. rewrite user_dir_leave. cbn [snd]. rewrite Hiff, user_dir_fetched.
      reflexivity. }
    destruct (rmtree_error E (scratch_of w) w') as [[m remains]|]; [eauto|exact Hd].
Qed.

(** X16: every accepted name ends in .mp3 and has none of the forbidden
    characters, so it names an entry of the destination itself; and no
    more names are accepted than the fetch left files that end in .mp3. *)
Theorem accepted_names_safe (E : Env) (url d q : str) (w : World) :
  let rw := download_and_validate E url d q w in
  match rw.1 with
  | Ok accepted =>
      Forall good_name accepted /\
      (length accepted
       <= length (mp3_names (tmp_dir (scratch_of w) (fetched E url d q w))))%nat
  | _ => True
  end.
Proof.
  intros rw. subst rw. rewrite run_steps.
  destruct (mkdir_error E d w) as [msg|]; [exact I|]. rewrite leave_result.
  destruct (fetch_error E url d q w) as [msg|].
  - cbn [fst snd]. destruct (rmtree_error E _ _) as [[m remains]|]; exact I.
  - destruct (loop_exact E (scratch_of w) d
                (sorted (mp3_names (tmp_dir (scratch_of w) (fetched E url d q w))))
                (fetched E url d q w)) as (accepted & w' & -> & Hlen & Hgood & _).
    cbn [fst snd]. destruct (rmtree_error E _ _) as [[m remains]|]; [exact I|].
    split; [exact Hgood|].
    rewrite (Permutation_length (sorted_perm _)) in Hlen. exact Hlen.
Qed.

End Runs.

Module PageMore.

Lemma dirs_kept_trans w1 w2 w3 : dirs_kept w1 w2 -> dirs_kept w2 w3 -> dirs_kept w1 w3.
Proof. intros H1 H2 d n f H. apply H2, H1, H. Qed.

Lemma all_kept_trans w1 w2 w3 : all_kept w1 w2 -> all_kept w2 w3 -> all_kept w1 w3.
Proof.
  intros [T1 D1] [T2 D2]. split; [|eapply dirs_kept_trans; eauto].
  intros t D H. apply T2, T1, H.
Qed.

Lemma tidy_kept_trans w1 w2 w3 : tidy_kept w1 w2 -> tidy_kept w2 w3 -> tidy_kept w1 w3.
Proof.
  intros [T1 D1] [T2 D2]. split; [congruence|eapply dirs_kept_trans; eauto].
Qed.

Lemma all_kept_tidy w w' : tmpdirs w' = tmpdirs w -> dirs_kept w w' -> all_kept w w'.
Proof. intros HT HD. split; [|exact HD]. intros t D H. rewrite HT. exact H. Qed.

Lemma all_kept_run E url d q w : all_kept w (download_and_validate E url d q w).2.
Proof.
  destruct (download_and_validate_run E (fun _ => True) (fun _ _ => I) url d q w (fun _ => I))
    as (r & w' & -> & HT & HD & _). split; assumption.
Qed.

Lemma tidy_kept_run E url d q w :
  (forall t w0, rmtree_error E t w0 = None) ->
  tidy_kept w (download_and_validate E url d q w).2.
Proof.
  intros Hrm.
  destruct (download_and_validate_run E (fun _ => True) (fun _ _ => I) url d q w (fun _ => I))
    as (r & w' & -> & _ & HD & _ & _ & HT). split; [apply HT, Hrm|exact HD].
Qed.

Lemma download_and_validate_ends E url d q w :
  match (download_and_validate E url d q w).1 with
  | Ok _ => True
  | Raised (Exception _) => True
  | Raised (SystemExit _) => False
  | Diverged => False
  end.
Proof.
  destruct (download_and_validate_run E (fun _ => True) (fun _ _ => I) url d q w (fun _ => I))
    as (r & w' & -> & _ & _ & _ & Hout & _).
  cbn [fst]. destruct r as [a|[msg|code]|]; try exact I; exact Hout.
Qed.

Section Tame.

Context (E : Env) (R : World -> World -> Prop).
Context (R_trans : forall w1 w2 w3, R w1 w2 -> R w2 w3 -> R w1 w3).
Context (R_tidy : forall w w', tmpdirs w' = tmpdirs w -> dirs_kept w w' -> R w w').
Context (R_run : forall url d q w, R w (download_and_validate E url d q w).2).

Lemma R_refl w : R w w.
Proof. apply R_tidy; [reflexivity|apply dirs_kept_refl]. Qed.

Lemma R_log e w : R w (log_event e w).
Proof. apply R_tidy; [reflexivity|apply dirs_kept_same; reflexivity]. Qed.

Lemma tame_ret b {A} (a : A) : tame R b (mret a).
Proof. intros w. split; [apply R_refl|exact I]. Qed.

Lemma tame_gets b {A} (f : World -> A) : tame R b (gets f).
Proof. intros w. split; [apply R_refl|exact I]. Qed.

Lemma tame_emit b e : tame R b (emit e).
Proof. intros w. split; [apply R_log|exact I]. Qed.

Lemma tame_raise {A} msg : tame R false (raise (A:=A) (Exception msg)).
Proof. intros w. split; [apply R_refl|reflexivity]. Qed.

Lemma tame_fail_if o : tame R false (fail_if o).
Proof.
  intros w. unfold fail_if. destruct (o w); (split; [apply R_refl|]); [reflexivity|exact I].
Qed.

Lemma tame_bind b {A B} (m : M A) (f : A -> M B) :
  tame R b m -> (forall a, tame R b (f a)) -> tame R b (m ≫= f).
Proof.
  intros Hm Hf w. destruct (Hm w) as (HR & Hr). unfold mbind, M_bind.
  destruct (m w) as [[a|[msg|code]|] w1]; cbn [fst snd] in *; try (destruct Hr; fail); auto.
  destruct (Hf a w1) as (HR' & Hr'). split; [eapply R_trans; eauto|exact Hr'].
Qed.

Lemma tame_try {A} (m : M A) h :
  tame R false m -> (forall e, tame R true (h e)) -> tame R true (try_except m h).
Proof.
  intros Hm Hh w. destruct (Hm w) as (HR & Hr). unfold try_except.
  destruct (m w) as [[a|[msg|code]|] w1]; cbn [fst snd] in *; try (destruct Hr; fail); auto.
  destruct (Hh msg w1) as (HR' & Hr'). split; [eapply R_trans; eauto|exact Hr'].
Qed.

Lemma tame_mkdir d : tame R false (mkdir E d).
Proof.
  intros w. unfold mkdir, fail_if, modify, mbind, M_bind. cbv beta iota.
  destruct (mkdir_error E d w); cbn [fst snd].
  - split; [apply R_refl|reflexivity].
  - split; [|exact I]. apply R_tidy; [reflexivity|].
    apply (frame_mkdir 1%positive (fun _ => True)).
Qed.

Lemma tame_download_and_validate url d q : tame R false (download_and_validate E url d q).
Proof.
  intros w. split; [apply R_run|].
  pose proof (download_and_validate_ends E url d q w) as H.
  destruct (download_and_validate E url d q w).1 as [a|[msg|code]|]; auto.
Qed.

Ltac tame_with tac :=
  repeat first
    [ tac | apply tame_ret | apply tame_gets | apply tame_emit | apply tame_raise
    | apply tame_fail_if
    | apply tame_bind; [|intros ?]
    | apply tame_try; [|intros ?]
    | match goal with
      | |- tame _ _ (if ?b then _ else _) => destruct b
      | |- tame _ _ (match ?x with _ => _ end) => destruct x
      end ].

Lemma tame_show_files out_path files : tame R true (show_files E out_path files).
Proof.
  induction files as [|f rest IH]; cbn [show_files];
    unfold show_file, path_stat, read_bytes; tame_with fail. exact IH.
Qed.

Lemma tame_download_into url out_path quality ex :
  tame R true (download_into E url out_path quality ex).
Proof.
  unfold download_into, shutil_which.
  tame_with ltac:(first [apply tame_download_and_validate | apply tame_mkdir
                        | apply tame_show_files]).
Qed.

(** The page, step by step. *)
Lemma main_run ui w :
  StreamlitApp.main E ui w =
  if download_clicked ui then
    on_download E (url_input ui) (out_dir_of E ui)
      (selectbox bitrates 1 (quality_choice ui) 192) (page_shown E ui w)
  else (Ok tt, page_shown E ui w).
Proof.
  unfold StreamlitApp.main, emit, modify, mbind, M_bind, mret, M_ret. cbv beta iota.
  destruct (download_clicked ui); reflexivity.
Qed.

Lemma on_download_run url out_dir quality w :
  on_download E url out_dir quality w =
  if bool_decide (url = []) then
    (Ok tt, log_event (St StError (lit "Please provide a YouTube URL.")) w)
  else if bool_decide (out_dir = []) then
    (Ok tt, log_event (St StError
              (lit "Please select or enter an output folder before downloading.")) w)
  else
    match stat_error E (path_of E out_dir) w with
    | Some msg => (Raised (Exception msg), w)
    | None =>
        download_into E url (path_of E out_dir) quality
          (bool_decide (is_Some (dirs w !! path_of E out_dir))) w
    end.
Proof.
  unfold on_download. destruct (bool_decide (url = [])); [reflexivity|].
  destruct (bool_decide (out_dir = [])); [reflexivity|].
  unfold dir_exists, fail_if, gets, mbind, M_bind. cbv beta iota.
  destruct (stat_error E (path_of E out_dir) w); reflexivity.
Qed.

(** The only error that leaves the page is the one of the test of line
    234. *)
Lemma main_tame ui w :
  R w (StreamlitApp.main E ui w).2 /\
  match (StreamlitApp.main E ui w).1 with
  | Ok _ => True
  | Raised (Exception msg) =>
      download_clicked ui = true /\ url_input ui <> [] /\ out_dir_of E ui <> [] /\
      stat_error E (out_path_of E ui) (page_shown E ui w) = Some msg /\
      (StreamlitApp.main E ui w).2 = page_shown E ui w
  | Raised (SystemExit _) => False
  | Diverged => False
  end /\
  (stat_error E (out_path_of E ui) (page_shown E ui w) = None ->
   (StreamlitApp.main E ui w).1 = Ok tt).
Proof.
  assert (R w (page_shown E ui w)) as R0
    by (eapply R_trans; apply R_log).
  rewrite main_run. destruct (download_clicked ui); [|cbn [fst snd]; auto].
  rewrite on_download_run.
  destruct (bool_decide (url_input ui = [])) eqn:Hu;
    [cbn [fst snd]; split; [eapply R_trans; [exact R0|apply R_log]|auto]|].
  destruct (bool_decide (out_dir_of E ui = [])) eqn:Ho;
    [cbn [fst snd]; split; [eapply R_trans; [exact R0|apply R_log]|auto]|].
  apply bool_decide_eq_false in Hu, Ho. fold (out_path_of E ui).
  destruct (stat_error E (out_path_of E ui) (page_shown E ui w)) as [msg|] eqn:Hs.
  - cbn [fst snd]. split; [exact R0|]. split; [auto|]. discriminate.
  - destruct (tame_download_into (url_input ui) (out_path_of E ui)
                (selectbox bitrates 1 (quality_choice ui) 192)
                (bool_decide (is_Some (dirs (page_shown E ui w) !! out_path_of E ui)))
                (page_shown E ui w)) as (HR & Hr).
    split; [eapply R_trans; eauto|].
    destruct (download_into E _ _ _ _ _).1 as [[]|[m|code]|];
      try (destruct Hr; fail); try discriminate; auto.
Qed.

End Tame.

End PageMore.

Import PageMore.

Module FrontEnds.

(** X17: whatever the user enters and whatever the tools and the file
    system do, the page script touches no temporary directory and no file
    that was there, and leaves the temporary directories as they were when
    no removal of one fails.  It returns, unless the test whether the
    folder exists, which is outside every try, raises: that error is the
    only one that leaves the script, after the title and the selected
    folder were written and nothing else was done; when that test does not
    raise, the script returns. *)
Theorem page_escapes (E : Env) (ui : Widgets) (w : World) :
  let rw := StreamlitApp.main E ui w in
  tmp_kept w rw.2 /\ dirs_kept w rw.2 /\
  ((forall t w0, rmtree_error E t w0 = None) -> tmpdirs rw.2 = tmpdirs w) /\
  match rw.1 with
  | Ok _ => True
  | Raised (Exception msg) =>
      download_clicked ui = true /\ url_input ui <> [] /\ out_dir_of E ui <> [] /\
      stat_error E (out_path_of E ui) (page_shown E ui w) = Some msg /\
      rw.2 = page_shown E ui w
  | Raised (SystemExit _) => False
  | Diverged => False
  end /\
  (stat_error E (out_path_of E ui) (page_shown E ui w) = None -> rw.1 = Ok tt).
Proof.
  intros rw. subst rw.
  destruct (main_tame E all_kept all_kept_trans all_kept_tidy (all_kept_run E) ui w)
    as ((HT & HD) & Hr & Hok).
  split; [exact HT|]. split; [exact HD|]. split; [|split; [exact Hr|exact Hok]].
  intros Hrm.
  destruct (main_tame E tidy_kept tidy_kept_trans (fun w0 w' HT' HD' => conj HT' HD')
              (fun url d q w0 => tidy_kept_run E url d q w0 Hrm) ui w) as ((HT' & _) & _).
  exact HT'.
Qed.

(** A run of the page: the folder is given as out with a slash at its end
    and is shown as entered; the fetch leaves one file, which is accepted,
    placed, and shown with its size and its button; the message of success
    names the folder as pathlib writes it. *)
Example page_run :
  let ui := mkWidgets (lit "https://youtu.be/x") 2 (lit "out/") 3 true in
  let E := env_of [(lit "Song?.mp3", audio 1)] in
  let rw := StreamlitApp.main E ui empty_world in
  rw.1 = Ok tt /\
  log rw.2 =
  [ hero_shown;
    St StMarkdown (lit "**Selected folder:** <span class=" ++ [34] ++ lit "card-sub" ++ [34]
                   ++ lit ">out/</span>");
    St StSpinner (lit "Downloading, converting and validating " ++ [8212]
                  ++ lit " this may take a while...");
    Ydl (StreamlitApp.ydl_opts 1 (lit "320")) (lit "https://youtu.be/x");
    Spawn (ffprobe_argv (lit "/tmp/tmpdir/Song?.mp3")) 15;
    St StSuccess (lit "Completed: 1 validated file(s) available in out");
    St StMarkdown (lit "<div class='file-row'><div class='file-name'>Song.mp3</div></div>");
    St StMarkdown (lit "<div class='file-meta'>0.00 MB</div>");
    StDownloadButton (lit "Song.mp3") [1] ].
Proof. cbv zeta. split; vm_compute; reflexivity. Qed.

(** A folder whose path has a component of 300 characters, on a file
    system that refuses a name of more than 255 bytes: the script raises. *)
Example page_long_folder :
  let ui := mkWidgets (lit "https://youtu.be/x") 2 (repeat 97 300) 1 true in
  (StreamlitApp.main (env_name_max []) ui empty_world).1
  = Raised (Exception (lit "[Errno 36] File name too long")).
Proof. vm_compute. reflexivity. Qed.



(** X19: when the test of the folder does not raise, the folder can be
    made, the fetch raises and the removal of the temporary directory does
    not fail, the page shows the error of the fetch as its last message and
    returns; no user directory has changed and no temporary directory is
    left. *)
Theorem page_reports_fetch_error (E : Env) (ui : Widgets) (w : World) (msg : str) :
  download_clicked ui = true -> url_input ui <> [] -> out_dir_of E ui <> [] ->
  (forall p w0, stat_error E p w0 = None) ->
  (forall d w0, mkdir_error E d w0 = None) ->
  (forall t w0, rmtree_error E t w0 = None) ->
  (forall opts u w0, (ydl E opts u w0).2 = Some msg) ->
  let rw := StreamlitApp.main E ui w in
  rw.1 = Ok tt /\
  last (log rw.2) = Some (fetch_failed msg) /\
  (forall d', user_dir d' rw.2 = user_dir d' w) /\
  tmpdirs rw.2 = tmpdirs w.
Proof.
  intros Hc Hu Ho Hs Hmk Hrm Hy rw. subst rw.
  assert (exists wc, StreamlitApp.main E ui w = (Ok tt, log_event (fetch_failed msg) wc) /\
            (forall d', user_dir d' wc = user_dir d' w) /\ tmpdirs wc = tmpdirs w)
    as (wc & -> & Hd & Ht).
  2: { cbn [fst snd log log_event]. split; [reflexivity|]. split; [apply last_snoc|].
       split; [exact Hd|exact Ht]. }
  rewrite main_run, Hc, on_download_run.
  rewrite bool_decide_eq_false_2 by exact Hu. rewrite bool_decide_eq_false_2 by exact Ho.
  rewrite Hs. fold (out_path_of E ui).
  set (w0 := page_shown E ui w). set (out := out_path_of E ui). set (q := selectbox _ _ _ _).
  assert (forall w1, (forall d', user_dir d' w1 = user_dir d' w) -> tmpdirs w1 = tmpdirs w ->
            exists wc, try_except
                (files ← download_and_validate E (url_input ui) out (str_of_int q);
                 mret (Some files))
                (fun e : str => emit (St StError (lit "Download/validation failed: " ++ e));;
                          mret None) w1 = (Ok None, log_event (fetch_failed msg) wc) /\
              (forall d', user_dir d' wc = user_dir d' w) /\ tmpdirs wc = tmpdirs w) as Hrun.
  { intros w1 Hd1 Ht1.
    pose proof (run_steps E (url_input ui) out (str_of_int q) w1) as Hr.
    rewrite Hmk in Hr. unfold fetch_error in Hr. rewrite Hy in Hr.
    destruct (leave_facts E (scratch_of w1)
                (Raised (Exception msg) : Result (list str),
                 fetched E (url_input ui) out (str_of_int q) w1)) as (_ & _ & _ & Hl).
    cbn [fst snd] in Hl. rewrite Hrm in Hl. rewrite Hl in Hr.
    exists (closed (scratch_of w1) (fetched E (url_input ui) out (str_of_int q) w1)).
    split; [|split].
    - unfold try_except. unfold mbind at 1, M_bind at 1. rewrite Hr. reflexivity.
    - intros d'. change (user_dir d' (closed ?t ?w3)) with (user_dir d' w3).
      rewrite (user_dir_fetched E (url_input ui) out (str_of_int q) w1 d'). apply Hd1.
    - rewrite tmpdirs_closed_fetched. exact Ht1. }
  unfold download_into.
  assert (exists w1, (forall d', user_dir d' w1 = user_dir d' w) /\ tmpdirs w1 = tmpdirs w /\
            (if negb (bool_decide (is_Some (dirs w0 !! out))) then
               try_except (mkdir E out;; mret true)
                 (fun e : str =>
                    emit (St StError (lit "Could not create output directory: " ++ e));;
                    mret false)
             else mret true) w0 = (Ok true, w1)) as (w1 & Hd1 & Ht1 & Hmade).
  { destruct (bool_decide (is_Some (dirs w0 !! out))); cbn [negb].
    - exists w0. split; [reflexivity|]. split; reflexivity.
    - exists (set_dir out (user_dir out w0) w0). split; [|split; [reflexivity|]].
      + intros d'. rewrite user_dir_set_dir. destruct (decide (out = d')) as [<-|]; reflexivity.
      + unfold try_except, mkdir, fail_if, modify, mbind, M_bind, mret, M_ret.
        rewrite Hmk. reflexivity. }
  rewrite (bind_ok _ _ _ _ _ Hmade). cbn [negb]. unfold shutil_which.
  rewrite (bind_ok _ _ w1 _ w1) by reflexivity.
  rewrite (bind_ok _ _ w1 _ w1) by reflexivity.
  assert (exists w2, (forall d', user_dir d' w2 = user_dir d' w) /\ tmpdirs w2 = tmpdirs w /\
            (if negb (which E (lit "ffmpeg") w1) || negb (which E (lit "ffprobe") w1)
             then emit (St StWarning (lit "ffmpeg/ffprobe not found on PATH. Audio validation may be limited. Install ffmpeg to improve security checks."))
             else mret tt) w1 = (Ok tt, w2)) as (w2 & Hd2 & Ht2 & Hwarn).
  { destruct (negb _ || negb _); eexists; (split; [|split; [|reflexivity]]); assumption. }
  rewrite (bind_ok _ _ _ _ _ Hwarn).
  rewrite (bind_ok _ _ w2 tt (log_event (St StSpinner (lit "Downloading, converting and validating " ++ [8212] ++ lit " this may take a while...")) w2)) by reflexivity.
  destruct (Hrun (log_event (St StSpinner (lit "Downloading, converting and validating " ++ [8212] ++ lit " this may take a while...")) w2)) as (wc & Htry & Hd & Ht);
    [exact Hd2|exact Ht2|].
  rewrite (bind_ok _ _ _ _ _ Htry). exists wc. split; [reflexivity|]. split; assumption.
Qed.

Lemma page_reports_fetch_error_witness :
  let ui := mkWidgets (lit "https://youtu.be/x") 2 (lit "out") 1 true in
  (StreamlitApp.main (env_fetch_fails []) ui empty_world).1 = Ok tt.
Proof.
  intros ui.
  apply (page_reports_fetch_error (env_fetch_fails []) ui empty_world (lit "DownloadError")
           eq_refl ltac:(discriminate) ltac:(discriminate)
           (fun _ _ => eq_refl) (fun _ _ => eq_refl) (fun _ _ => eq_refl)
           (fun _ _ _ => eq_refl)).
Defined.

(** X20: the command line, case by case.  When the output directory cannot
    be made, the error leaves main and nothing else is called.  Otherwise
    the fetch is called once, after a warning if ffmpeg is missing; when it
    raises, the error is printed and the program exits with status 1
    without printing Done; when it returns, Done is printed. *)
Theorem cli_outcome (E : Env) (args : YtToMp3.Namespace) (w : World) :
  let rw := YtToMp3.main E args w in
  match mkdir_error E (YtToMp3.output args) (log_event (cli_banner args) w) with
  | Some msg => rw = (Raised (Exception msg), log_event (cli_banner args) w)
  | None =>
      match (ydl E (cli_opts args) (YtToMp3.url args) (cli_ready E args w)).2 with
      | Some msg =>
          rw = (Raised (SystemExit 1),
                log_event (Stdout (lit "Download failed: " ++ msg)) (cli_fetched E args w))
      | None => rw = (Ok tt, log_event (Stdout (lit "Done.")) (cli_fetched E args w))
      end
  end.
Proof.
  intros rw. subst rw.
  unfold YtToMp3.main, YtToMp3.download_mp3, mkdir, fail_if, YtToMp3.check_ffmpeg,
    shutil_which, try_except.
  unfold emit, modify, gets, raise. unfold mbind, M_bind.
  unfold mret, M_ret. cbv beta iota.
  destruct (YtToMp3.ns_noplaylist args); cbv beta iota; fold (cli_banner args);
    (destruct (mkdir_error E (YtToMp3.output args) (log_event (cli_banner args) w)) as [msg|];
     [reflexivity|]);
    cbv beta iota; fold (cli_made args w); unfold cli_fetched, cli_ready;
    (destruct (which E (lit "ffmpeg") (cli_made args w)); cbn [negb]; cbv beta iota;
     fold cli_warning;
     match goal with
     | |- context [ydl_download E ?o ?u ?w0] => rewrite (ydl_download_run E o u w0)
     end;
     fold (cli_opts args);
     destruct (ydl E (cli_opts args) (YtToMp3.url args) _).2; reflexivity).
Qed.

End FrontEnds.

Module HookFacts.

Section Hook.

Context {num : Type} (is_zero : num -> bool) (progress_line : num -> num -> str + str).

(** X21: the progress hook prints at most one line and changes nothing
    else.  It computes a progress line only from two numbers that are both
    not zero, the total being the estimate when the total itself is
    missing or zero, so it never divides by zero.  It raises only when one
    of the two counts is a string, or when the line of two such numbers
    cannot be computed, as for an int that no float can hold; and a dict
    without a status does nothing. *)
Theorem progress_hook_guarded (d : gmap str (@Value num)) (w : World) :
  let rw := progress_hook is_zero progress_line d w in
  let total := py_or is_zero (get d (lit "total_bytes")) (get d (lit "total_bytes_estimate")) in
  let downloaded := get d (lit "downloaded_bytes") in
  match rw.1 with
  | Ok _ =>
      rw.2 = w \/
      (eq_str (get d (lit "status")) (lit "finished") = true /\
       rw.2 = log_event (Stdout finished_line) w) \/
      (exists n t line, downloaded = VNum n /\ total = VNum t /\
                   is_zero n = false /\ is_zero t = false /\
                   progress_line n t = inl line /\
                   rw.2 = log_event (Stdout line) w)
  | Raised (Exception error) =>
      rw.2 = w /\
      (countable_value total && countable_value downloaded = false \/
       exists n t, downloaded = VNum n /\ total = VNum t /\
                   is_zero n = false /\ is_zero t = false /\
                   progress_line n t = inr error)
  | Raised (SystemExit _) => False
  | Diverged => False
  end /\
  (d !! lit "status" = None -> rw = (Ok tt, w)).
Proof.
  intros rw total downloaded. subst rw. unfold progress_hook. fold total downloaded.
  split.
  - destruct (eq_str (get d (lit "status")) (lit "downloading")).
    + destruct (truthy is_zero total && truthy is_zero downloaded) eqn:Ht;
        [|left; reflexivity].
      apply andb_true_iff in Ht as [Ht Hd].
      destruct downloaded as [|n|s], total as [|t|s']; cbn in Ht, Hd; try discriminate;
        cbn [fst snd]; try solve [split; [reflexivity|left; reflexivity]].
      apply negb_true_iff in Ht, Hd.
      destruct (progress_line n t) as [line|error] eqn:Hl; cbn [fst snd].
      * right. right. exists n, t, line. auto 10.
      * split; [reflexivity|]. right. exists n, t. auto 10.
    + destruct (eq_str (get d (lit "status")) (lit "finished")) eqn:Hf; cbn [fst snd].
      * right. left. split; reflexivity.
      * left. reflexivity.
  - intros Hs. unfold get at 1 2. rewrite Hs. reflexivity.
Qed.

End Hook.

(** With ints: no total, an estimate of 200, and 50 bytes so far print the
    progress line of 50 out of 200. *)
Example progress_hook_estimate (progress_line : Z -> Z -> str + str) (line : str) :
  let d : gmap str Value :=
    {[ lit "status" := VStr (lit "downloading");
       lit "total_bytes_estimate" := VNum 200%Z;
       lit "downloaded_bytes" := VNum 50%Z ]} in
  progress_line 50%Z 200%Z = inl line ->
  progress_hook (Z.eqb 0) progress_line d empty_world
  = (Ok tt, log_event (Stdout line) empty_world).
Proof.
  intros d Hl. unfold progress_hook.
  replace (get d (lit "status")) with (@VStr Z (lit "downloading")) by (vm_compute; reflexivity).
  replace (get d (lit "total_bytes")) with (@VNone Z) by (vm_compute; reflexivity).
  replace (get d (lit "total_bytes_estimate")) with (VNum 200%Z) by (vm_compute; reflexivity).
  replace (get d (lit "downloaded_bytes")) with (VNum 50%Z) by (vm_compute; reflexivity).
  cbn. rewrite Hl. reflexivity.
Qed.

(** A total of one byte and a count of 10^400 bytes, whose quotient no
    float can hold: the hook raises the error of the division. *)
Example progress_hook_overflow (progress_line : Z -> Z -> str + str) (error : str) :
  let d : gmap str Value :=
    {[ lit "status" := VStr (lit "downloading");
       lit "total_bytes" := VNum 1%Z;
       lit "downloaded_bytes" := VNum (10 ^ 400)%Z ]} in
  progress_line (10 ^ 400)%Z 1%Z = inr error ->
  progress_hook (Z.eqb 0) progress_line d empty_world
  = (Raised (Exception error), empty_world).
Proof.
  intros d Hl. unfold progress_hook.
  replace (get d (lit "status")) with (@VStr Z (lit "downloading")) by (vm_compute; reflexivity).
  replace (get d (lit "total_bytes")) with (VNum 1%Z) by (vm_compute; reflexivity).
  replace (get d (lit "downloaded_bytes")) with (VNum (10 ^ 400)%Z) by (vm_compute; reflexivity).
  assert (truthy (Z.eqb 0) (VNum (10 ^ 400)%Z) = true) as Ht
    by (vm_compute; reflexivity).
  unfold py_or. cbn [truthy eq_str]. change (negb (0 =? 1)%Z) with true.
  cbn [truthy] in Ht. rewrite Ht. cbn. rewrite bool_decide_eq_true_2 by reflexivity.
  rewrite Hl. reflexivity.
Qed.

End HookFacts.

